(** * Maliketh: operator authentication, task orchestration and opcodes

  A shallow embedding of the operator-facing listener
  (server/maliketh/listeners/admin.py), of the operator client
  (client/comms.py) and of the opcode enumeration (client/opcodes.py),
  together with the properties of the design document that concern them. *)

From Stdlib Require Import ZArith String Ascii List Lia Permutation.
From stdpp Require Import base option list gmap strings.

Local Open Scope string_scope.
Local Open Scope Z_scope.

(** ** Strings

  A Python [str] is modelled by a Rocq [string] whose characters are the
  code points below 256. *)

Module Str.

(** [str.lower] on one character: the upper-case letters below code point
    256 are A-Z and the Latin-1 letters U+00C0..U+00DE other than the
    multiplication sign U+00D7; each lowers to the code point 32 above. *)
Definition lower_char (c : ascii) : ascii :=
  let n := N_of_ascii c in
  if ((65 <=? n) && (n <=? 90))%N
     || ((192 <=? n) && (n <=? 222) && negb (n =? 215))%N
  then ascii_of_N (n + 32)
  else c.

Fixpoint lower (s : string) : string :=
  match s with
  | EmptyString => EmptyString
  | String c s' => String (lower_char c) (lower s')
  end.

(** [s.startswith(p)] *)
Definition startswith (s p : string) : bool := String.prefix p s.

(** [sep.join(l)] *)
Fixpoint join (sep : string) (l : list string) : string :=
  match l with
  | [] => ""
  | [x] => x
  | x :: rest => x ++ sep ++ join sep rest
  end.

(** [s[n:]] for [0 <= n] *)
Fixpoint slice_from (n : nat) (s : string) : string :=
  match n, s with
  | O, _ => s
  | S n', String _ s' => slice_from n' s'
  | S _, EmptyString => EmptyString
  end.

(** [sub in s] on strings: [sub] occurs in [s] as a substring. *)
Fixpoint contains (s sub : string) : bool :=
  String.prefix sub s
  || match s with
     | EmptyString => false
     | String _ s' => contains s' sub
     end.

(** The other case of an ASCII letter; any other character is left alone.
    Used to say what "the same name in another case" means. *)
Definition swapcase_char (c : ascii) : ascii :=
  let n := N_of_ascii c in
  if ((65 <=? n) && (n <=? 90))%N then ascii_of_N (n + 32)
  else if ((97 <=? n) && (n <=? 122))%N then ascii_of_N (n - 32)
  else c.

(** [case_variant s n]: [s] spells [n] with some of its ASCII letters in
    the other case. *)
Fixpoint case_variant (s n : string) : Prop :=
  match s, n with
  | EmptyString, EmptyString => True
  | String a s', String b n' =>
      (a = b \/ a = swapcase_char b) /\ case_variant s' n'
  | _, _ => False
  end.

End Str.

(** ** client/opcodes.py *)

Module Opcodes.

Inductive Opcodes : Set :=
| CMD | SELFDESTRUCT | SYSINFO | SLEEP
| UPDATE_CONFIG | DOWNLOAD | UPLOAD | INJECT.

Definition name (o : Opcodes) : string :=
  match o with
  | CMD => "CMD"
  | SELFDESTRUCT => "SELFDESTRUCT"
  | SYSINFO => "SYSINFO"
  | SLEEP => "SLEEP"
  | UPDATE_CONFIG => "UPDATE_CONFIG"
  | DOWNLOAD => "DOWNLOAD"
  | UPLOAD => "UPLOAD"
  | INJECT => "INJECT"
  end.

Definition value (o : Opcodes) : Z :=
  match o with
  | CMD => 0x01
  | SELFDESTRUCT => 0x02
  | SYSINFO => 0x03
  | SLEEP => 0x04
  | UPDATE_CONFIG => 0x05
  | DOWNLOAD => 0x06
  | UPLOAD => 0x07
  | INJECT => 0x08
  end.

(** [for opcode in Opcodes]: the members in definition order (no two
    members share a value, so the enumeration has no aliases). *)
Definition members : list Opcodes :=
  [CMD; SELFDESTRUCT; SYSINFO; SLEEP; UPDATE_CONFIG; DOWNLOAD; UPLOAD; INJECT].

Fixpoint get_by_name_from (l : list Opcodes) (n : string) : option Z :=
  match l with
  | [] => None
  | opcode :: rest =>
      if String.eqb (name opcode) n
         || String.eqb (Str.lower (name opcode)) (Str.lower n)
      then Some (value opcode)
      else get_by_name_from rest n
  end.

Definition get_by_name (n : string) : option Z := get_by_name_from members n.

Fixpoint get_by_value_from (l : list Opcodes) (v : Z) : option string :=
  match l with
  | [] => None
  | opcode :: rest =>
      if Z.eqb (value opcode) v then Some (name opcode)
      else get_by_value_from rest v
  end.

Definition get_by_value (v : Z) : option string := get_by_value_from members v.

End Opcodes.

(** ** JSON values, as [request.json] yields them and [jsonify] takes them *)

Module Json.

#[warnings="-register-all"]
Inductive json : Type :=
| JNull                              (* None *)
| JBool (b : bool)
| JNum (n : Z)
| JStr (s : string)
| JArr (l : list json)
| JObj (m : gmap string json).       (* dict *)

Definition of_option_str (o : option string) : json :=
  match o with
  | Some s => JStr s
  | None => JNull
  end.

End Json.
Export Json.

(** ** Dates

  A naive [datetime] is its number of microseconds since the epoch.  A
  text in the format "%Y-%m-%d %H:%M:%S" names one whole second and is
  represented by the number of that second. *)

Module Datetime.

Definition datetime : Type := Z.

Record timestamp : Type := Timestamp { second_of : Z }.

Definition microseconds_per_second : Z := 1000000.

(** [timedelta(hours=h)] *)
Definition timedelta_hours (h : Z) : Z := h * 3600 * microseconds_per_second.

(** [d.strftime("%Y-%m-%d %H:%M:%S")]: the microseconds are dropped. *)
Definition strftime (d : datetime) : timestamp :=
  Timestamp (d / microseconds_per_second).

(** [datetime.strptime(s, "%Y-%m-%d %H:%M:%S")] *)
Definition strptime (s : timestamp) : datetime :=
  second_of s * microseconds_per_second.

End Datetime.
Export Datetime.

(** ** The store (maliketh.models, maliketh.db)

  The module that declares the tables is not part of the listener; the
  records below follow the persisted schema of the design document. *)

Module Models.

(** Modelled from the spec: the declaration of the Operator table
    (maliketh.models) is missing; "Operators (username PK, public key,
    login secret, token, token expiry)". *)
Record Operator : Type := mkOperator {
  username : string;
  public_key : string;
  login_secret : string;
  auth_token : option string;
  auth_token_expiry : option timestamp
}.

(** Modelled from the spec: the declaration of the Task table
    (maliketh.models) is missing; "Tasks (task id PK, operator id, implant
    id, opcode, args, output, created_at)". *)
Record Task : Type := mkTask {
  task_id : string;
  operator_id : string;
  implant_id : json;
  opcode : json;
  args : json;
  output : option string;
  created_at : timestamp
}.

(** A table is the list of its rows in storage order. *)
Record Db : Type := mkDb {
  operators : list Operator;
  tasks : list Task
}.

(** [Model.query.filter_by(...).first()] *)
Definition query_first {Row : Type} (p : Row -> bool) (table : list Row)
  : option Row := List.find p table.

(** [Model.query.filter_by(...).all()] *)
Definition query_all {Row : Type} (p : Row -> bool) (table : list Row)
  : list Row := List.filter p table.

(** The filter [task_id=id] *)
Definition by_task_id (id : string) (t : Task) : bool :=
  String.eqb (task_id t) id.

Definition opt_str_eqb (a b : option string) : bool :=
  match a, b with
  | Some x, Some y => String.eqb x y
  | None, None => true
  | _, _ => false
  end.

(** Committing a changed operator object: the row with its primary key is
    replaced. *)
Definition commit_operator (op : Operator) (d : Db) : Db :=
  {| operators :=
       List.map (fun o => if String.eqb (username o) (username op) then op else o)
                (operators d);
     tasks := tasks d |}.

(** [db.session.delete(task); db.session.commit()]: the row with the
    task's primary key is removed. *)
Definition delete_row (t : Task) (d : Db) : Db :=
  {| operators := operators d;
     tasks := List.filter (fun r => negb (String.eqb (task_id r) (task_id t)))
                          (tasks d) |}.

(** [db.session.add(task); db.session.commit()] *)
Definition add_row (t : Task) (d : Db) : Db :=
  {| operators := operators d; tasks := tasks d ++ [t] |}.

End Models.
Export Models.

(** ** Exceptions and HTTP vocabulary shared by the server and the client *)

Module Http.

Inductive exn : Set :=
| TypeError | AttributeError | KeyError | UnicodeDecodeError
| JSONDecodeError | ConnectionError | AssertionError.

Inductive http_method : Set := GET | POST | DELETE.

(** The URL [f"http://{host}:{port}{path}"]. *)
Record Url : Type := mkUrl {
  host : string;
  port : Z;
  path : string
}.

(** [s.split(sep)] for a one-character separator *)
Fixpoint split_on (sep : ascii) (s : string) : list string :=
  match s with
  | EmptyString => [EmptyString]
  | String c s' =>
      if Ascii.eqb c sep then EmptyString :: split_on sep s'
      else match split_on sep s' with
           | x :: xs => String c x :: xs
           | [] => [String c EmptyString]
           end
  end.

End Http.
Export Http.

(** ** Handlers as computations over the store

  A handler reads and writes the store and either returns or lets an
  exception escape (Flask then answers 500). *)

Module Handler.

Inductive result (A : Type) : Type :=
| Return (a : A)
| Raise (e : exn).
Arguments Return {A} a.
Arguments Raise {A} e.

Definition M (A : Type) : Type := Db -> result A * Db.

Definition ret {A} (a : A) : M A := fun d => (Return a, d).
Definition raise {A} (e : exn) : M A := fun d => (Raise e, d).
Definition bind {A B} (m : M A) (k : A -> M B) : M B :=
  fun d => match m d with
           | (Return a, d') => k a d'
           | (Raise e, d') => (Raise e, d')
           end.
#[export] Instance M_ret : MRet M := @ret.
#[export] Instance M_bind : MBind M := fun A B k m => bind m k.

Definition get_db : M Db := fun d => (Return d, d).
Definition modify_db (f : Db -> Db) : M unit := fun d => (Return tt, f d).

(** [(jsonify(body), code)] *)
Record response : Type := mkResponse {
  body : gmap string json;
  status_code : Z
}.

(** The request as the handlers look at it. *)
Record Request : Type := mkRequest {
  headers : list (string * string);
  json_body : json                    (* [request.json]; [JNull] is None *)
}.

(** [request.headers]: header names compare without regard to case. *)
Definition header_name_eqb (a b : string) : bool :=
  String.eqb (Str.lower a) (Str.lower b).

Fixpoint headers_get (hs : list (string * string)) (key : string)
  : option string :=
  match hs with
  | [] => None
  | (k, v) :: rest =>
      if header_name_eqb k key then Some v else headers_get rest key
  end.

End Handler.
Export Handler.

(** ** server/maliketh/listeners/admin.py *)

Module Admin.

Definition json_response (fields : list (string * json)) (code : Z)
  : M response := mret (mkResponse (list_to_map fields) code).

Definition dict_has (d : gmap string json) (key : string) : bool :=
  match d !! key with
  | Some _ => true
  | None => false
  end.

Definition verify_auth_token (request : Request) (now : datetime)
  : M (option Operator) :=
  (* Get bearer token *)
  match headers_get (headers request) "Authorization" with
  | None => mret None
  | Some token =>
      (* Check if it's a bearer token *)
      if negb (Str.startswith token "Bearer ") then mret None
      else
        let token := Str.slice_from 7 token in
        d ← get_db;
        match query_first (fun o => opt_str_eqb (auth_token o) (Some token))
                          (operators d) with
        | None => mret None
        | Some operator =>
            (* Check if the token is still valid *)
            match auth_token_expiry operator with
            | None => raise TypeError      (* strptime(None, ...) *)
            | Some expiry =>
                if strptime expiry <? now then mret None
                else mret (Some operator)
            end
        end
  end.

Definition not_authenticated : M response :=
  json_response [("status", JBool false); ("msg", JStr "Not authenticated")] 401.

(** The decorator: [func] is the decorated handler, already applied to the
    arguments of the route; [now] is what [datetime.now()] returns. *)
Definition verified (func : Operator -> M response)
  (request : Request) (now : datetime) : M response :=
  operator ← verify_auth_token request now;
  match operator with
  | None => not_authenticated
  | Some operator => func operator
  end.

Section RequestToken.

(** What the handler takes from maliketh.crypto.ec and from the codecs. *)
Variable bytes : Type.
Variable encode_utf8 : string -> bytes.            (* bytes(s, "utf-8") *)
Variable decode_utf8 : bytes -> option string.     (* None: UnicodeDecodeError *)
Variable decrypt_and_verify : bytes -> Operator -> option bytes.

(** The else branch of the validity test: [now] is the second reading of
    the clock, [token] what [random_hex(128)] draws. *)
Definition mint_token (operator : Operator) (now : datetime) (token : string)
  : M (option string) :=
  modify_db (commit_operator
    {| username := username operator;
       public_key := public_key operator;
       login_secret := login_secret operator;
       auth_token := Some token;
       auth_token_expiry := Some (strftime (now + timedelta_hours 6)) |});;
  mret (Some token).

(** [now_check] and [now_issue] are the two readings of [datetime.now()], in
    the validity test and when a token is minted. *)
Definition request_token (request : Request)
  (now_check now_issue : datetime) (random_hex_128 : string) : M response :=
  let header := headers_get (headers request) in
  (* Check if X-ID and X-Signature header is present *)
  if existsb (fun x => negb (bool_decide (is_Some (header x))))
             ["X-ID"; "X-Signature"]
  then json_response
         [("status", JBool false); ("message", JStr "Unknown operator key")] 400
  (* Check if they have content *)
  else if existsb (fun x => match header x with
                            | Some v => Nat.eqb (String.length v) 0
                            | None => false
                            end) ["X-ID"; "X-Signature"]
  then json_response
         [("status", JBool false); ("message", JStr "Unknown operator key")] 400
  else
    match header "X-ID", header "X-Signature" with
    | Some x_id, Some x_signature =>
        (* Get the operator from X-ID *)
        d ← get_db;
        match query_first (fun o => String.eqb (username o) x_id) (operators d) with
        | None =>
            json_response
              [("status", JBool false); ("message", JStr "Unknown operator")] 400
        | Some operator =>
            match decrypt_and_verify (encode_utf8 x_signature) operator with
            | None =>
                json_response
                  [("status", JBool false);
                   ("msg", JStr "Couldn't verify signature")] 400
            | Some original_message =>
                match decode_utf8 original_message with
                | None => raise UnicodeDecodeError
                | Some original_message =>
                    if negb (String.eqb original_message (login_secret operator))
                    then json_response
                           [("status", JBool false);
                            ("msg", JStr "Unable to verify signature")] 400
                    else
                      (* If we get here, the operator is authenticated *)
                      token ← match auth_token_expiry operator with
                              | Some expiry =>
                                  if strptime expiry >? now_check
                                  then mret (auth_token operator)
                                  else mint_token operator now_issue random_hex_128
                              | None =>
                                  mint_token operator now_issue random_hex_128
                              end;
                      json_response
                        [("status", JBool true);
                         ("token", of_option_str token);
                         ("rmq_queue", JStr "");
                         ("rmq_host", JStr "");
                         ("rmq_port", JNum 1)] 200
                end
            end
        end
    | _, _ => raise KeyError
    end.

End RequestToken.

Definition revoke_token (operator : Operator) : M response :=
  modify_db (commit_operator
    {| username := username operator;
       public_key := public_key operator;
       login_secret := login_secret operator;
       auth_token := None;
       auth_token_expiry := None |});;
  json_response [("status", JBool true)] 200.

(** Modelled from the spec: [Task.toJSON] (maliketh.models) is missing; the
    object of the task's attributes. *)
Definition toJSON (t : Task) : json :=
  JObj (list_to_map
    [("task_id", JStr (task_id t));
     ("operator_id", JStr (operator_id t));
     ("implant_id", implant_id t);
     ("opcode", opcode t);
     ("args", args t);
     ("output", of_option_str (output t));
     ("created_at", JNum (second_of (created_at t)))]).

(** Modelled from the spec: [Task.new_task] (maliketh.models) is missing;
    "allocates a new unique task id, stores the task with output = none, and
    returns it".  [fresh_id] is the id it generates, [now] the creation
    time. *)
Definition new_task (fresh_id : string) (now : datetime)
  (operator_name : string) (implant json_opcode json_args : json) : M Task :=
  let task := {| task_id := fresh_id;
                 operator_id := operator_name;
                 implant_id := implant;
                 opcode := json_opcode;
                 args := json_args;
                 output := None;
                 created_at := strftime now |} in
  modify_db (add_row task);;
  mret task.

Definition list_tasks (operator : Operator) : M response :=
  d ← get_db;
  let tasks := query_all (fun t => String.eqb (operator_id t) (username operator))
                         (tasks d) in
  json_response [("status", JBool true); ("tasks", JArr (List.map toJSON tasks))] 200.

Definition required_fields : list string := ["implant_id"; "opcode"; "args"].

Section AddTask.

(** The order in which a Python set of strings is iterated; it varies with
    the hash seed of the process. *)
Variable set_order : gset string -> list string.

Definition missing_fields_msg (task : gmap string json) : string :=
  "Invalid task, missing fields: "
  ++ Str.join ", " (set_order (list_to_set required_fields ∖ dom task)).

Definition add_task (operator : Operator) (request : Request)
  (fresh_id : string) (now : datetime) : M response :=
  match json_body request with
  | JNull =>
      json_response
        [("status", JBool false); ("msg", JStr "Invalid request, no JSON body")] 400
  | JObj task =>
      (* Check if the task is valid *)
      if existsb (fun x => negb (dict_has task x)) required_fields
      then json_response
             [("status", JBool false); ("msg", JStr (missing_fields_msg task))] 400
      else
        match task !! "implant_id", task !! "opcode", task !! "args" with
        | Some implant, Some json_opcode, Some json_args =>
            (* Create the task *)
            task ← new_task fresh_id now (username operator)
                            implant json_opcode json_args;
            json_response [("status", JBool true); ("task", toJSON task)] 200
        | _, _, _ => raise KeyError
        end
  | JStr s =>
      (* [x not in task] is the substring test; then [task.keys()] or
         [task["implant_id"]] fails *)
      if existsb (fun x => negb (Str.contains s x)) required_fields
      then raise AttributeError
      else raise TypeError
  | JArr l =>
      if existsb (fun x => negb (existsb (fun e => match e with
                                                   | JStr y => String.eqb y x
                                                   | _ => false
                                                   end) l)) required_fields
      then raise AttributeError
      else raise TypeError
  | JBool _ | JNum _ => raise TypeError   (* [x not in task] *)
  end.

End AddTask.

Definition get_task_result (operator : Operator) (task_id : string)
  : M response :=
  (* Check if this operator owns the task *)
  d ← get_db;
  match query_first (by_task_id task_id) (tasks d) with
  | None => json_response [("status", JBool false); ("msg", JStr "Unknown task")] 400
  | Some task =>
      if negb (String.eqb (operator_id task) (username operator))
      then json_response [("status", JBool false); ("msg", JStr "Unauthorized")] 401
      else json_response
             [("status", JBool true); ("result", of_option_str (output task))] 200
  end.

Definition delete_task (operator : Operator) (task_id : string)
  : M response :=
  (* Check if this operator owns the task *)
  d ← get_db;
  match query_first (by_task_id task_id) (tasks d) with
  | None => json_response [("status", JBool false); ("msg", JStr "Unknown task")] 400
  | Some task =>
      if negb (String.eqb (operator_id task) (username operator))
      then json_response [("status", JBool false); ("msg", JStr "Unauthorized")] 401
      else
        modify_db (delete_row task);;
        json_response [("status", JBool true)] 200
  end.

(** *** The URL map built by the [@admin.route] decorators *)

Inductive view : Set :=
| view_request_token | view_revoke_token | view_list_tasks
| view_add_task | view_get_task_result | view_delete_task.

Definition url_map : list (string * http_method * view) :=
  [("/op/auth/token/request", GET, view_request_token);
   ("/op/auth/token/revoke", GET, view_revoke_token);
   ("/op/tasks/list", GET, view_list_tasks);
   ("/op/tasks/add", POST, view_add_task);
   ("/op/tasks/result/<task_id>", GET, view_get_task_result);
   ("/op/tasks/delete/<task_id>", DELETE, view_delete_task)].

Definition http_method_eqb (a b : http_method) : bool :=
  match a, b with
  | GET, GET | POST, POST | DELETE, DELETE => true
  | _, _ => false
  end.

(** A rule matches a path segment by segment; a segment [<name>] of the
    rule takes any non-empty segment of the path (the default converter).
    The result lists the values of the variables. *)
Fixpoint match_segments (rule path : list string) : option (list string) :=
  match rule, path with
  | [], [] => Some []
  | r :: rule', p :: path' =>
      if String.prefix "<" r
      then if Nat.eqb (String.length p) 0 then None
           else option_map (cons p) (match_segments rule' path')
      else if String.eqb r p then match_segments rule' path'
      else None
  | _, _ => None
  end.

Definition match_rule (rule path : string) : option (list string) :=
  match_segments (split_on "/" rule) (split_on "/" path).

Fixpoint dispatch_in (rules : list (string * http_method * view))
  (method : http_method) (path : string) : option (view * list string) :=
  match rules with
  | [] => None                                   (* 404 *)
  | (rule, m, v) :: rest =>
      match (if http_method_eqb m method then match_rule rule path else None) with
      | Some args => Some (v, args)
      | None => dispatch_in rest method path
      end
  end.

Definition dispatch (method : http_method) (path : string)
  : option (view * list string) := dispatch_in url_map method path.

End Admin.

(** ** client/comms.py

    A client function is a tree of the requests it sends: each request
    node continues with the reply it gets.  Log lines and prints are left
    out. *)

Module Comms.

(** What [requests.get] and the like come back with: a connection error,
    or a status code and the body as [response.json()] parses it ([None]
    when the body is not JSON). *)
Inductive http_reply : Type :=
| NoConnection
| Reply (status_code : Z) (json : option json).

Inductive client (A : Type) : Type :=
| Done (a : A)
| Exit (code : Z)                                   (* sys.exit(code) *)
| Throw (e : exn)
| Send (method : http_method) (url : Url) (headers : list (string * string))
       (json : option json) (k : http_reply -> client A).
Arguments Done {A} a.
Arguments Exit {A} code.
Arguments Throw {A} e.
Arguments Send {A} method url headers json k.

Fixpoint client_bind {A B} (c : client A) (f : A -> client B) : client B :=
  match c with
  | Done a => f a
  | Exit code => Exit code
  | Throw e => Throw e
  | Send m u h j k => Send m u h j (fun r => client_bind (k r) f)
  end.

#[export] Instance client_ret : MRet client := @Done.
#[export] Instance client_bind_inst : MBind client :=
  fun A B f c => client_bind c f.

(** [try: c except ...: handler]; [handler e = None] when no clause takes
    [e].  A [sys.exit] passes through [except Exception]. *)
Fixpoint try_except {A} (c : client A) (handler : exn -> option (client A))
  : client A :=
  match c with
  | Done a => Done a
  | Exit code => Exit code
  | Throw e => match handler e with
               | Some c' => c'
               | None => Throw e
               end
  | Send m u h j k => Send m u h j (fun r => try_except (k r) handler)
  end.

(** [requests.get(url, headers=headers)] and its siblings *)
Definition request (method : http_method) (url : Url)
  (headers : list (string * string)) (json : option json)
  : client (Z * option Json.json) :=
  Send method url headers json
       (fun r => match r with
                 | NoConnection => Throw ConnectionError
                 | Reply code body => Done (code, body)
                 end).

(** [response.json()[key]] *)
Definition json_field (response : Z * option json) (key : string) : client json :=
  match snd response with
  | None => Throw JSONDecodeError
  | Some (JObj m) => match m !! key with
                     | Some v => Done v
                     | None => Throw KeyError
                     end
  | Some _ => Throw TypeError
  end.

(** The truth value of a JSON value in an [if]. *)
Definition truthy (j : json) : bool :=
  match j with
  | JNull => false
  | JBool b => b
  | JNum n => negb (n =? 0)
  | JStr s => negb (Nat.eqb (String.length s) 0)
  | JArr l => negb (Nat.eqb (List.length l) 0)
  | JObj m => negb (Nat.eqb (size m) 0)
  end.

(** [j != True] *)
Definition not_equal_True (j : json) : bool :=
  match j with
  | JBool true => false
  | JNum 1 => false
  | _ => true
  end.

(** [len(j)]; [None] is the TypeError of a value without length. *)
Definition py_len (j : json) : option nat :=
  match j with
  | JStr s => Some (String.length s)
  | JArr l => Some (List.length l)
  | JObj m => Some (size m)
  | JNull | JBool _ | JNum _ => None
  end.

(** The fields of config.OperatorConfig that the client reads and writes;
    [auth_token] holds whatever the token reply carried. *)
Record OperatorConfig : Type := mkConfig {
  name : string;
  c2 : string;
  c2_port : Z;
  auth_token : json
}.

Definition set_auth_token (config : OperatorConfig) (token : json)
  : OperatorConfig :=
  {| name := name config; c2 := c2 config; c2_port := c2_port config;
     auth_token := token |}.

Inductive ServerAuthResponse : Type :=
| ServerAuthResponseSuccess (token rmq_host rmq_port rmq_queue : json) (status : bool)
| ServerAuthResponseFailure (status : bool) (message : json).

Section Client.

(** [config.enc_and_sign_secret()] (config module) *)
Variable enc_and_sign_secret : OperatorConfig -> string.
(** [str(j)] for a number, a list or a dict, as an f-string prints it *)
Variable repr : json -> string.

(** [f"{j}"] *)
Definition format (j : json) : string :=
  match j with
  | JNull => "None"
  | JBool true => "True"
  | JBool false => "False"
  | JStr s => s
  | JNum _ | JArr _ | JObj _ => repr j
  end.

Definition check_auth_token (config : OperatorConfig) : client json :=
  let url := mkUrl (c2 config) (c2_port config) "/op/auth/token/status" in
  let headers := [("Authentication", "Bearer " ++ format (auth_token config))] in
  response ← request GET url headers None;
  json_field response "status".

Definition server_auth (ip : string) (port : Z) (name login_secret : string)
  : client ServerAuthResponse :=
  let url := mkUrl ip port "/op/auth/token/request" in
  let headers := [("X-ID", name); ("X-Signature", login_secret)] in
  response ← request GET url headers None;
  if fst response =? 200 then
    token ← json_field response "token";
    rmq_host ← json_field response "rmq_host";
    rmq_port ← json_field response "rmq_port";
    rmq_queue ← json_field response "rmq_queue";
    mret (ServerAuthResponseSuccess token rmq_host rmq_port rmq_queue true)
  else
    message ← json_field response "msg";
    mret (ServerAuthResponseFailure false message).

Definition handle_server_auth (config : OperatorConfig) : client json :=
  (* Attempt to authenticate to the server *)
  auth_result ← try_except
    (server_auth (c2 config) (c2_port config) (name config)
                 (enc_and_sign_secret config))
    (fun e => match e with
              | ConnectionError => Some (Exit 1)
              | _ => None
              end);
  match auth_result with
  | ServerAuthResponseFailure status _ =>
      if negb status then Exit 1
      else Throw AssertionError
  | ServerAuthResponseSuccess token _ _ _ status =>
      if negb status then Throw AssertionError
      else mret token
  end.

(** The function updates [config] in place; the model returns it. *)
Definition ensure_token (config : OperatorConfig) : client OperatorConfig :=
  config ← match auth_token config with
           | JNull =>
               token ← handle_server_auth config;
               mret (set_auth_token config token)
           | t =>
               match py_len t with
               | None => Throw TypeError
               | Some O =>
                   token ← handle_server_auth config;
                   mret (set_auth_token config token)
               | Some (S _) => mret config
               end
           end;
  status ← check_auth_token config;
  if negb (truthy status) then
    token ← handle_server_auth config;
    mret (set_auth_token config token)
  else mret config.

Definition bearer (config : OperatorConfig) : list (string * string) :=
  [("Authorization", "Bearer " ++ format (auth_token config))].

Definition list_implants (config : OperatorConfig) : client json :=
  try_except
    (config ← ensure_token config;
     let url := mkUrl (c2 config) (c2_port config) "/op/implant/list" in
     response ← request GET url (bearer config) None;
     json_field response "implants")
    (fun _ => Some (Done (JArr []))).

Definition get_task_result_url (config : OperatorConfig) (task_id : string)
  : Url :=
  mkUrl (c2 config) (c2_port config) ("/op/tasks/results/" ++ task_id).

Definition get_task_result (config : OperatorConfig) (task_id : string)
  : client json :=
  try_except
    (config ← ensure_token config;
     let url := get_task_result_url config task_id in
     response ← request GET url (bearer config) None;
     status ← json_field response "status";
     if not_equal_True status then mret JNull
     else json_field response "result")
    (fun _ => Some (Done (JStr ""))).

(** [implant["implant_id"].startswith(id_prefix)] *)
Definition implant_matches (implant : json) (id_prefix : string) : client bool :=
  match implant with
  | JObj m =>
      match m !! "implant_id" with
      | Some (JStr id) => Done (Str.startswith id id_prefix)
      | Some _ => Throw AttributeError
      | None => Throw KeyError
      end
  | _ => Throw TypeError
  end.

Fixpoint implant_exists_loop (implants : list json) (id_prefix : string)
  : client bool :=
  match implants with
  | [] => Done false
  | implant :: rest =>
      found ← implant_matches implant id_prefix;
      if found : bool then Done true else implant_exists_loop rest id_prefix
  end.

(** [for implant in implants]: a list yields its elements, a dict its
    keys, a string its characters. *)
Definition iterate (j : json) : client (list json) :=
  match j with
  | JArr l => Done l
  | JObj m => Done (JStr <$> (map_to_list m).*1)
  | JStr s => Done ((fun c => JStr (String c EmptyString)) <$> list_ascii_of_string s)
  | JNull | JBool _ | JNum _ => Throw TypeError
  end.

Definition implant_exists (config : OperatorConfig) (id_prefix : string)
  : client bool :=
  implants ← list_implants config;
  implants ← iterate implants;
  implant_exists_loop implants id_prefix.

(** [response.json()] *)
Definition json_of (response : Z * option json) : client json :=
  match snd response with
  | None => Throw JSONDecodeError
  | Some j => Done j
  end.

Definition get_server_stats (config : OperatorConfig) : client json :=
  try_except
    (config ← ensure_token config;
     let url := mkUrl (c2 config) (c2_port config) "/op/stats" in
     response ← request GET url (bearer config) None;
     json_of response)
    (fun e => match e with
              | ConnectionError => Some (Exit 1)
              | _ => Some (Done (JObj ∅))
              end).

Definition get_tasks (config : OperatorConfig) : client json :=
  try_except
    (config ← ensure_token config;
     let url := mkUrl (c2 config) (c2_port config) "/op/tasks/list" in
     response ← request GET url (bearer config) None;
     status ← json_field response "status";
     if not_equal_True status then mret (JArr [])
     else json_field response "tasks")
    (fun _ => Some (Done (JArr []))).

(** The body that [add_task] posts *)
Definition add_task_data (opcode : Z) (implant_id : string) (args : json)
  : gmap string json :=
  list_to_map [("opcode", JNum opcode);
               ("implant_id", JStr implant_id);
               ("args", args)].

Definition add_task (config : OperatorConfig) (opcode : Z)
  (implant_id : string) (args : json) : client json :=
  try_except
    (config ← ensure_token config;
     let url := mkUrl (c2 config) (c2_port config) "/op/tasks/add" in
     let data := add_task_data opcode implant_id args in
     response ← request POST url (bearer config) (Some (JObj data));
     status ← json_field response "status";
     if not_equal_True status then mret (JObj ∅)
     else json_field response "task")
    (fun _ => Some (Done (JObj ∅))).

Definition get_implant_profile (config : OperatorConfig) (implant_id : string)
  : client json :=
  config ← ensure_token config;
  let url := mkUrl (c2 config) (c2_port config)
                   ("/op/implant/config/" ++ implant_id) in
  response ← request GET url (bearer config) None;
  status ← json_field response "status";
  if not_equal_True status then mret (JObj ∅)
  else json_field response "config".

Definition update_implant_profile (config : OperatorConfig)
  (implant_id : string) (changes : json) : client unit :=
  config ← ensure_token config;
  let url := mkUrl (c2 config) (c2_port config)
                   ("/op/implant/config/" ++ implant_id) in
  response ← request POST url (bearer config) (Some changes);
  status ← json_field response "status";
  if not_equal_True status then mret tt
  else mret tt.

Definition kill_implant (config : OperatorConfig) (implant_id : string)
  : client unit :=
  config ← ensure_token config;
  let url := mkUrl (c2 config) (c2_port config)
                   ("/op/implant/kill/" ++ implant_id) in
  response ← request DELETE url (bearer config) None;
  status ← json_field response "status";
  if not_equal_True status then mret tt
  else mret tt.

End Client.

(** *** Running a client against a server

    [serve] answers one request from the state [S] of the other side. *)

Inductive outcome (A : Type) : Type :=
| Returned (a : A)
| Exited (code : Z)
| Uncaught (e : exn).
Arguments Returned {A} a.
Arguments Exited {A} code.
Arguments Uncaught {A} e.

Record sent : Type := mkSent {
  sent_method : http_method;
  sent_url : Url;
  sent_headers : list (string * string);
  sent_json : option json
}.

Fixpoint run {A S} (serve : S -> sent -> http_reply * S) (c : client A) (st : S)
  : outcome A * S :=
  match c with
  | Done a => (Returned a, st)
  | Exit code => (Exited code, st)
  | Throw e => (Uncaught e, st)
  | Send m u h j k =>
      let (reply, st') := serve st (mkSent m u h j) in
      run serve (k reply) st'
  end.

End Comms.

(** ** Vocabulary of the properties *)

(** The answers of the task handlers to an id that no task carries and to
    a task of another operator. *)
Definition unknown_task : response :=
  {| body := list_to_map [("status", JBool false); ("msg", JStr "Unknown task")];
     status_code := 400 |}.

Definition unauthorized : response :=
  {| body := list_to_map [("status", JBool false); ("msg", JStr "Unauthorized")];
     status_code := 401 |}.

(** The operator row that a name selects, and what it stores. *)
Definition operator_named (d : Db) (name : string) : option Operator :=
  query_first (fun o => String.eqb (username o) name) (operators d).

Definition stored_token (d : Db) (name : string) : option string :=
  operator_named d name ≫= auth_token.

Definition stored_expiry (d : Db) (name : string) : option timestamp :=
  operator_named d name ≫= auth_token_expiry.

(** A token request that carries both headers, neither of them empty. *)
Definition submission (request : Request) (x_id x_signature : string) : Prop :=
  headers_get (headers request) "X-ID" = Some x_id
  /\ headers_get (headers request) "X-Signature" = Some x_signature
  /\ x_id <> "" /\ x_signature <> "".

(** The three ways in which a submission does not authenticate, and the
    body that [request_token] answers each with. *)
Inductive auth_failure : Set :=
| UnknownOperator | BadSignature | SecretMismatch.

Definition failure_body (k : auth_failure) : gmap string json :=
  match k with
  | UnknownOperator =>
      list_to_map [("status", JBool false); ("message", JStr "Unknown operator")]
  | BadSignature =>
      list_to_map [("status", JBool false); ("msg", JStr "Couldn't verify signature")]
  | SecretMismatch =>
      list_to_map [("status", JBool false); ("msg", JStr "Unable to verify signature")]
  end.

Section Authentication.

Variable bytes : Type.
Variable encode_utf8 : string -> bytes.
Variable decode_utf8 : bytes -> option string.
Variable decrypt_and_verify : bytes -> Operator -> option bytes.

(** [fails_authentication request d k]: the operator named in X-ID is
    unknown, or the signature does not decrypt and verify, or the decrypted
    text is not the operator's login secret. *)
Inductive fails_authentication (request : Request) (d : Db)
  : auth_failure -> Prop :=
| fails_unknown x_id x_signature :
    submission request x_id x_signature ->
    operator_named d x_id = None ->
    fails_authentication request d UnknownOperator
| fails_signature x_id x_signature operator :
    submission request x_id x_signature ->
    operator_named d x_id = Some operator ->
    decrypt_and_verify (encode_utf8 x_signature) operator = None ->
    fails_authentication request d BadSignature
| fails_secret x_id x_signature operator message text :
    submission request x_id x_signature ->
    operator_named d x_id = Some operator ->
    decrypt_and_verify (encode_utf8 x_signature) operator = Some message ->
    decode_utf8 message = Some text ->
    text <> login_secret operator ->
    fails_authentication request d SecretMismatch.

(** [authenticates request d operator]: the submission carries the login
    secret of the operator it names, signed. *)
Definition authenticates (request : Request) (d : Db) (operator : Operator)
  : Prop :=
  exists x_id x_signature message,
    submission request x_id x_signature
    /\ operator_named d x_id = Some operator
    /\ decrypt_and_verify (encode_utf8 x_signature) operator = Some message
    /\ decode_utf8 message = Some (login_secret operator).

End Authentication.

(** The answer to a token request without both headers filled in. *)
Definition key_failure : response :=
  {| body := list_to_map [("status", JBool false);
                          ("message", JStr "Unknown operator key")];
     status_code := 400 |}.

(** The operator object after a token is minted for it. *)
Definition with_token (operator : Operator) (token : string) (expiry : timestamp)
  : Operator :=
  {| username := username operator;
     public_key := public_key operator;
     login_secret := login_secret operator;
     auth_token := Some token;
     auth_token_expiry := Some expiry |}.

(** The body of a successful token reply. *)
Definition token_body (token : option string) : gmap string json :=
  list_to_map [("status", JBool true);
               ("token", of_option_str token);
               ("rmq_queue", JStr "");
               ("rmq_host", JStr "");
               ("rmq_port", JNum 1)].

(** A stand-in for maliketh.crypto.ec in examples: a blob verifies for an
    operator when it starts with the operator's public key, and the rest is
    the message. *)
Module Toy.

Definition bytes : Type := string.
Definition encode_utf8 (s : string) : bytes := s.
Definition decode_utf8 (b : bytes) : option string := Some b.
Definition decrypt_and_verify (blob : bytes) (operator : Operator)
  : option bytes :=
  if String.prefix (public_key operator) blob
  then Some (Str.slice_from (String.length (public_key operator)) blob)
  else None.

Definition request_token : Request -> datetime -> datetime -> string -> M response :=
  Admin.request_token bytes encode_utf8 decode_utf8 decrypt_and_verify.

End Toy.

(** Data of the examples: one operator without a token, and four token
    requests. *)
Module Example.

Definition alice : Operator := mkOperator "alice" "pk:" "s3cret" None None.
Definition store : Db := mkDb [alice] [].
Definition unknown : Request :=
  mkRequest [("X-ID", "mallory"); ("X-Signature", "pk:s3cret")] JNull.
Definition forged : Request :=
  mkRequest [("X-ID", "alice"); ("X-Signature", "garbage")] JNull.
Definition wrong_secret : Request :=
  mkRequest [("X-ID", "alice"); ("X-Signature", "pk:guess")] JNull.
Definition genuine : Request :=
  mkRequest [("X-ID", "alice"); ("X-Signature", "pk:s3cret")] JNull.

(** An add-task body whose opcode is no member of the enumeration. *)
Definition bogus_task : gmap string json :=
  list_to_map [("implant_id", JStr "abc123");
               ("opcode", JStr "BOGUS");
               ("args", JObj (list_to_map [("cmd", JStr "whoami")]))].

(** The operator's client configuration, holding the token "tok", and a
    registry of two implants. *)
Definition config : Comms.OperatorConfig :=
  Comms.mkConfig "alice" "10.0.0.1" 80 (JStr "tok").
Definition registry : list (string * gmap string json) :=
  [("abc123", ∅); ("abcdef", ∅)].

End Example.

(** What the client receives for a handler's outcome: the response as
    JSON, or Flask's error page, which is not JSON, for an exception. *)
Definition as_reply (r : result response) : Comms.http_reply :=
  match r with
  | Return resp => Comms.Reply (status_code resp) (Some (JObj (body resp)))
  | Raise _ => Comms.Reply 500 None
  end.

(** The JSON summary of a registered implant: its id and whatever else the
    registry lists for it. *)
Definition implant_summary (entry : string * gmap string json) : json :=
  JObj (<["implant_id" := JStr entry.1]> entry.2).

(** A server for the examples of the client: every token is good, and the
    implant list is the given registry. *)
Definition registry_server (registry : list (string * gmap string json))
  (st : unit) (request : Comms.sent) : Comms.http_reply * unit :=
  let p := path (Comms.sent_url request) in
  if String.eqb p "/op/auth/token/status"
  then (Comms.Reply 200 (Some (JObj (list_to_map [("status", JBool true)]))), st)
  else if String.eqb p "/op/implant/list"
  then (Comms.Reply 200
          (Some (JObj (list_to_map
                         [("implants", JArr (implant_summary <$> registry))]))), st)
  else (Comms.Reply 404 None, st).

(** Unfolding the monad of handlers. *)
Ltac step_handler :=
  unfold mbind, M_bind, bind, mret, M_ret, ret, raise, get_db, modify_db,
    Admin.json_response, Admin.not_authenticated in *;
  cbn beta iota in *.

(** ** Vocabulary of the further properties *)

(** An operator row stores a token and its expiry together or not at all. *)
Definition token_with_expiry (o : Operator) : Prop :=
  auth_token o = None <-> auth_token_expiry o = None.

(** The operator object after a revocation. *)
Definition without_token (operator : Operator) : Operator :=
  {| username := username operator;
     public_key := public_key operator;
     login_secret := login_secret operator;
     auth_token := None;
     auth_token_expiry := None |}.

(** A JSON body that is neither null nor an object. *)
Definition not_a_dict (j : json) : Prop :=
  match j with
  | JNull | JObj _ => False
  | JBool _ | JNum _ | JStr _ | JArr _ => True
  end.

(** [leaves P c]: every way in which the client [c] can end satisfies
    [P], whatever the replies are. *)
Fixpoint leaves {A} (P : Comms.outcome A -> Prop) (c : Comms.client A) : Prop :=
  match c with
  | Comms.Done a => P (Comms.Returned a)
  | Comms.Exit code => P (Comms.Exited code)
  | Comms.Throw e => P (Comms.Uncaught e)
  | Comms.Send _ _ _ _ k => forall reply, leaves P (k reply)
  end.

(** The client ends by returning or by [sys.exit(1)], never with an
    exception. *)
Definition fails_soft {A} (o : Comms.outcome A) : Prop :=
  match o with
  | Comms.Returned _ => True
  | Comms.Exited code => code = 1
  | Comms.Uncaught _ => False
  end.

(** When the client exits, the exit code is 1. *)
Definition exits_with_1 {A} (o : Comms.outcome A) : Prop :=
  match o with
  | Comms.Exited code => code = 1
  | _ => True
  end.

(** A server that cannot be reached. *)
Definition server_down (st : unit) (request : Comms.sent)
  : Comms.http_reply * unit := (Comms.NoConnection, st).

Section TokenEndpoint.

Variable bytes : Type.
Variable encode_utf8 : string -> bytes.
Variable decode_utf8 : bytes -> option string.
Variable decrypt_and_verify : bytes -> Operator -> option bytes.

(** The listener's token endpoint as a client meets it: the headers that
    were sent go to [request_token], at the given clock readings and random
    draw, and the outcome comes back as the reply. *)
Definition token_endpoint (now_check now_issue : datetime) (fresh : string)
  (d : Db) (request : Comms.sent) : Comms.http_reply * Db :=
  let (r, d') :=
    Admin.request_token bytes encode_utf8 decode_utf8 decrypt_and_verify
      (mkRequest (Comms.sent_headers request) JNull) now_check now_issue fresh d in
  (as_reply r, d').

End TokenEndpoint.

(** The listener in front of its handlers: a request whose method and path
    match no rule of the URL map is answered with the 404 page, which is not
    JSON; a request that matches a rule goes to [routed]. *)
Definition listener {S : Type}
  (routed : S -> Comms.sent -> Comms.http_reply * S)
  (st : S) (request : Comms.sent) : Comms.http_reply * S :=
  match Admin.dispatch (Comms.sent_method request)
                       (path (Comms.sent_url request)) with
  | None => (Comms.Reply 404 None, st)
  | Some _ => routed st request
  end.

(** The submission that the client's [server_auth] puts together, as the
    listener receives it. *)
Definition auth_request (enc_and_sign_secret : Comms.OperatorConfig -> string)
  (config : Comms.OperatorConfig) : Request :=
  mkRequest [("X-ID", Comms.name config);
             ("X-Signature", enc_and_sign_secret config)] JNull.

(** * Properties *)

Section StrFacts.
Import Str.

Lemma lower_swapcase_char (c : ascii) :
  lower_char (swapcase_char c) = lower_char c.
Proof. destruct c as [[] [] [] [] [] [] [] []]; vm_compute; reflexivity. Qed.

Lemma case_variant_lower (s n : string) :
  case_variant s n -> lower s = lower n.
Proof.
  revert n; induction s as [|a s IH]; intros [|b n]; simpl; try tauto.
  intros [[->| ->] Hrest]; rewrite ?lower_swapcase_char, (IH n Hrest);
    reflexivity.
Qed.

Lemma case_variant_refl (s : string) : case_variant s s.
Proof. induction s; simpl; auto. Qed.

End StrFacts.

Section OpcodeFacts.
Import Opcodes.

Lemma get_by_name_from_hit (o : Opcodes) (rest : list Opcodes) (n : string) :
  Str.lower (name o) = Str.lower n ->
  get_by_name_from (o :: rest) n = Some (value o).
Proof.
  intros H; simpl. apply String.eqb_eq in H. rewrite H, orb_true_r.
  reflexivity.
Qed.

Lemma get_by_name_from_skip (o : Opcodes) (rest : list Opcodes) (n : string) :
  Str.lower (name o) <> Str.lower n ->
  get_by_name_from (o :: rest) n = get_by_name_from rest n.
Proof.
  intros H; simpl.
  destruct (String.eqb_spec (name o) n) as [E|_]; [subst n; tauto|].
  apply String.eqb_neq in H. rewrite H. reflexivity.
Qed.

Lemma get_by_name_lower (o : Opcodes) (s : string) :
  Str.lower s = Str.lower (name o) -> get_by_name s = Some (value o).
Proof.
  intros H. unfold get_by_name, members.
  destruct o;
    repeat (rewrite get_by_name_from_skip
              by (rewrite H; vm_compute; discriminate));
    apply get_by_name_from_hit; symmetry; exact H.
Qed.

Lemma get_by_value_value (o : Opcodes) : get_by_value (value o) = Some (name o).
Proof. destruct o; reflexivity. Qed.

Lemma get_by_value_closed (v : Z) (n : string) :
  get_by_value v = Some n -> exists o, v = value o /\ n = name o.
Proof.
  unfold get_by_value, members; cbn [get_by_value_from].
  repeat match goal with
         | |- context [Z.eqb (value ?o) v] =>
             destruct (Z.eqb_spec (value o) v) as [<-|_];
             [ intros [= <-]; exists o; split; reflexivity | ]
         end.
  discriminate.
Qed.

End OpcodeFacts.

(** ** Opcodes (client/opcodes.py) *)

Section OpcodeClaims.
Import Opcodes.

(** C6: for every defined opcode, looking its name up and then looking the
    numeric value up again gives the name back; the lookup by name finds the
    opcode for every spelling of the name that differs only in letter case;
    the enumeration consists of exactly CMD=1, SELFDESTRUCT=2, SYSINFO=3,
    SLEEP=4, UPDATE_CONFIG=5, DOWNLOAD=6, UPLOAD=7, INJECT=8. *)
Theorem opcode_round_trip :
  (forall o : Opcodes, get_by_name (name o) ≫= get_by_value = Some (name o))
  /\ (forall (o : Opcodes) (s : string),
        Str.case_variant s (name o) ->
        get_by_name s = Some (value o)
        /\ get_by_name s ≫= get_by_value = Some (name o))
  /\ (fun o => (name o, value o)) <$> members
     = [("CMD", 1); ("SELFDESTRUCT", 2); ("SYSINFO", 3); ("SLEEP", 4);
        ("UPDATE_CONFIG", 5); ("DOWNLOAD", 6); ("UPLOAD", 7); ("INJECT", 8)]
  /\ (forall o : Opcodes, o ∈ members)
  /\ (forall (v : Z) (n : string),
        get_by_value v = Some n -> exists o, o ∈ members /\ v = value o /\ n = name o).
Proof.
  assert (Hall : forall o : Opcodes, o ∈ members)
    by (intros []; unfold members; set_solver).
  split; [|split; [|split; [|split]]].
  - intros o. rewrite (get_by_name_lower o) by reflexivity. simpl.
    apply get_by_value_value.
  - intros o s Hs. apply case_variant_lower in Hs.
    rewrite (get_by_name_lower o s Hs). split; [reflexivity|].
    simpl. apply get_by_value_value.
  - reflexivity.
  - exact Hall.
  - intros v n H. destruct (get_by_value_closed v n H) as (o & -> & ->).
    exists o; auto.
Qed.

Lemma opcode_round_trip_witness :
  get_by_name "sYsInfo" = Some 3
  /\ get_by_name "sYsInfo" ≫= get_by_value = Some "SYSINFO".
Proof.
  apply (proj1 (proj2 opcode_round_trip) SYSINFO "sYsInfo").
  simpl. repeat split; auto.
Defined.

End OpcodeClaims.

(** ** The authentication wrapper (verify_auth_token, verified) *)

Section Wrapper.
Import Admin.

(** [verify_auth_token] only reads the store. *)
Lemma verify_auth_token_pure (request : Request) (now : datetime) (d : Db) :
  snd (verify_auth_token request now d) = d.
Proof.
  unfold verify_auth_token.
  destruct (headers_get _ _) as [token|]; [|reflexivity].
  destruct (negb _); [reflexivity|]. step_handler.
  destruct (query_first _ _) as [op|]; [|reflexivity].
  destruct (auth_token_expiry op) as [e|]; [|reflexivity].
  destruct (_ <? _); reflexivity.
Qed.

(** What the check answers in terms of the store: the row found for the
    presented token, and its expiry against the clock. *)
Lemma verify_auth_token_bearer (hs : list (string * string)) (b : json)
  (value : string) (now : datetime) (d : Db) :
  headers_get hs "Authorization" = Some value ->
  Str.startswith value "Bearer " = true ->
  fst (verify_auth_token (mkRequest hs b) now d)
  = match query_first (fun o => opt_str_eqb (auth_token o)
                                  (Some (Str.slice_from 7 value))) (operators d) with
    | None => Return None
    | Some operator =>
        match auth_token_expiry operator with
        | None => Raise TypeError
        | Some expiry =>
            if strptime expiry <? now then Return None
            else Return (Some operator)
        end
    end.
Proof.
  intros Hh Hb. unfold verify_auth_token; cbn [headers]. rewrite Hh, Hb.
  step_handler. cbn [negb].
  destruct (query_first _ _) as [op|]; [|reflexivity].
  destruct (auth_token_expiry op) as [e|]; [|reflexivity].
  destruct (_ <? _); reflexivity.
Qed.

(** When the check finds no operator the wrapper answers by itself. *)
Lemma verified_without_operator
  (func : Operator -> M response) (request : Request) (now : datetime) (d : Db) :
  verify_auth_token request now d = (Return None, d) ->
  verified func request now d
  = (Return {| body := list_to_map [("status", JBool false);
                                    ("msg", JStr "Not authenticated")];
               status_code := 401 |}, d).
Proof. intros Hv. unfold verified. step_handler. rewrite Hv. reflexivity. Qed.

Lemma query_first_no_holder (token : string) (rows : list Operator) :
  (forall o, o ∈ rows -> auth_token o <> Some token) ->
  query_first (fun o => opt_str_eqb (auth_token o) (Some token)) rows = None.
Proof.
  unfold query_first. intros Hno.
  destruct (find _ rows) as [o|] eqn:E; [|reflexivity].
  apply find_some in E as [Hin Heq]. apply list_elem_of_In in Hin.
  exfalso. apply (Hno o Hin).
  unfold opt_str_eqb in Heq. destruct (auth_token o) as [t|]; [|discriminate].
  apply String.eqb_eq in Heq. congruence.
Qed.

(** C9: a request to a protected operation whose Authorization header is
    absent, or does not begin with "Bearer ", or carries a token that fails
    validation (no operator stores it, or the operator found for it has an
    expiry before now, or in any other way the check returns no operator),
    is answered 401 "Not authenticated" by the wrapper whatever the wrapped
    handler is (so the handler does not run), and the store is left as it
    was. *)
Theorem verified_rejects_before_handler
  (func : Operator -> M response) (request : Request) (now : datetime) (d : Db) :
  headers_get (headers request) "Authorization" = None
  \/ (exists value, headers_get (headers request) "Authorization" = Some value
                    /\ Str.startswith value "Bearer " = false)
  \/ (exists value, headers_get (headers request) "Authorization" = Some value
                    /\ Str.startswith value "Bearer " = true
                    /\ forall o, o ∈ operators d ->
                                 auth_token o <> Some (Str.slice_from 7 value))
  \/ (exists value operator expiry,
        headers_get (headers request) "Authorization" = Some value
        /\ Str.startswith value "Bearer " = true
        /\ query_first (fun o => opt_str_eqb (auth_token o)
                                   (Some (Str.slice_from 7 value))) (operators d)
           = Some operator
        /\ auth_token_expiry operator = Some expiry
        /\ strptime expiry < now)
  \/ fst (verify_auth_token request now d) = Return None ->
  verified func request now d
  = (Return {| body := list_to_map [("status", JBool false);
                                    ("msg", JStr "Not authenticated")];
               status_code := 401 |}, d).
Proof.
  intros H.
  assert (Hfst : fst (verify_auth_token request now d) = Return None).
  { destruct request as [hs b]; cbn [headers] in H.
    destruct H as [H|[(v & H & Hb)|[(v & H & Hb & Hno)|[(v & op & e & H & Hb & Hop & He & Hlt)|H]]]].
    - unfold verify_auth_token; cbn [headers]. rewrite H. reflexivity.
    - unfold verify_auth_token; cbn [headers]. rewrite H, Hb. reflexivity.
    - rewrite (verify_auth_token_bearer _ _ _ _ _ H Hb).
      rewrite (query_first_no_holder _ _ Hno). reflexivity.
    - rewrite (verify_auth_token_bearer _ _ _ _ _ H Hb), Hop, He.
      apply Z.ltb_lt in Hlt. rewrite Hlt. reflexivity.
    - exact H. }
  apply verified_without_operator.
  pose proof (verify_auth_token_pure request now d) as Hp.
  destruct (verify_auth_token request now d) as [r d']; simpl in *.
  congruence.
Qed.

(** A handler that would wipe the store does not get to run. *)
Lemma verified_rejects_before_handler_witness :
  let wipe := fun _ : Operator =>
    modify_db (fun _ => mkDb [] []);; json_response [("status", JBool true)] 200 in
  let d := mkDb [mkOperator "alice" "pk" "s3cret" (Some "tok") (Some (Timestamp 100))]
                [] in
  verified wipe (mkRequest [("Authorization", "Basic tok")] JNull) 0 d
  = (Return {| body := list_to_map [("status", JBool false);
                                    ("msg", JStr "Not authenticated")];
               status_code := 401 |}, d).
Proof.
  intros wipe d. apply (verified_rejects_before_handler wipe).
  right; left. exists "Basic tok". split; reflexivity.
Defined.

(** An expired token: the handler does not run either. *)
Lemma verified_rejects_expired_token :
  let wipe := fun _ : Operator =>
    modify_db (fun _ => mkDb [] []);; json_response [("status", JBool true)] 200 in
  let d := mkDb [mkOperator "alice" "pk" "s3cret" (Some "tok") (Some (Timestamp 100))]
                [] in
  verified wipe (mkRequest [("Authorization", "Bearer tok")] JNull) 100000001 d
  = (Return {| body := list_to_map [("status", JBool false);
                                    ("msg", JStr "Not authenticated")];
               status_code := 401 |}, d)
  /\ fst (verified wipe (mkRequest [("Authorization", "Bearer tok")] JNull) 99 d)
     = Return {| body := list_to_map [("status", JBool true)];
                 status_code := 200 |}
  /\ snd (verified wipe (mkRequest [("Authorization", "Bearer tok")] JNull) 99 d)
     = mkDb [] [].
Proof. repeat split; reflexivity. Qed.

(** C3: the check at the instant of expiry.  An operator holds token "tok"
    that expires at second 1700000000; the token is presented when the
    clock reads exactly that instant, and the check accepts it; it is
    rejected one microsecond later. *)
Theorem verify_auth_token_accepts_at_expiry :
  let alice := mkOperator "alice" "pk" "s3cret" (Some "tok")
                          (Some (Timestamp 1700000000)) in
  let d := mkDb [alice] [] in
  let request := mkRequest [("Authorization", "Bearer tok")] JNull in
  let expiry := strptime (Timestamp 1700000000) in
  verify_auth_token request expiry d = (Return (Some alice), d)
  /\ verify_auth_token request (expiry + 1) d = (Return None, d).
Proof. split; reflexivity. Qed.

End Wrapper.

(** ** Task ownership (get_task_result, delete_task) *)

Section Ownership.
Import Admin.

Lemma query_first_none_iff (id : string) (table : list Task) :
  query_first (by_task_id id) table = None
  <-> ~ exists t, t ∈ table /\ task_id t = id.
Proof.
  unfold query_first. split.
  - intros H (t & Hin & Hid).
    apply list_elem_of_In in Hin.
    pose proof (find_none _ _ H t Hin) as Hn. unfold by_task_id in Hn.
    apply String.eqb_neq in Hn. contradiction.
  - intros H. destruct (find _ _) as [t|] eqn:E; [|reflexivity].
    exfalso. apply H. apply find_some in E as [Hin Hid].
    exists t. split; [apply list_elem_of_In; exact Hin|].
    apply String.eqb_eq. exact Hid.
Qed.

(** With task ids a primary key, the row found for an id is the row that
    carries it. *)
Lemma query_first_primary_key (table : list Task) (t : Task) :
  NoDup (task_id <$> table) ->
  t ∈ table ->
  query_first (by_task_id (task_id t)) table = Some t.
Proof.
  unfold query_first, by_task_id.
  induction table as [|r table IH]; intros Hnd Hin.
  - inversion Hin.
  - rewrite fmap_cons in Hnd. apply NoDup_cons in Hnd as [Hfresh Hnd].
    simpl. destruct (String.eqb_spec (task_id r) (task_id t)) as [E|E].
    + apply elem_of_cons in Hin as [->|Hin]; [reflexivity|].
      exfalso. apply Hfresh. rewrite E.
      apply list_elem_of_fmap. exists t. auto.
    + apply elem_of_cons in Hin as [->|Hin]; [congruence|].
      apply IH; assumption.
Qed.

Lemma get_task_result_cases (operator : Operator) (id : string) (d : Db) :
  get_task_result operator id d
  = (Return match query_first (by_task_id id) (tasks d) with
            | None => unknown_task
            | Some t =>
                if String.eqb (operator_id t) (username operator)
                then {| body := list_to_map
                                  [("status", JBool true);
                                   ("result", of_option_str (output t))];
                        status_code := 200 |}
                else unauthorized
            end, d).
Proof.
  unfold get_task_result. step_handler.
  destruct (query_first _ _) as [t|]; [|reflexivity].
  destruct (String.eqb _ _); reflexivity.
Qed.

Lemma delete_task_cases (operator : Operator) (id : string) (d : Db) :
  delete_task operator id d
  = match query_first (by_task_id id) (tasks d) with
    | None => (Return unknown_task, d)
    | Some t =>
        if String.eqb (operator_id t) (username operator)
        then (Return {| body := list_to_map [("status", JBool true)];
                        status_code := 200 |}, delete_row t d)
        else (Return unauthorized, d)
    end.
Proof.
  unfold delete_task. step_handler.
  destruct (query_first _ _) as [t|]; [|reflexivity].
  destruct (String.eqb _ _); reflexivity.
Qed.

(** C5: for every authenticated operator and task id, with task ids a
    primary key of the store: (1) an id that no task carries is answered
    400 "Unknown task" by both handlers; (2) a task of another operator is
    answered 401 "Unauthorized" by both, an answer different from the first,
    without a result field, and the store keeps the task; (3) whenever
    get_task_result answers with a result, or delete_task changes the store
    or reports success, the task exists and the caller owns it. *)
Theorem task_ownership_isolation (operator : Operator) (id : string) (d : Db) :
  NoDup (task_id <$> tasks d) ->
  ((~ exists t, t ∈ tasks d /\ task_id t = id) ->
     get_task_result operator id d = (Return unknown_task, d)
     /\ delete_task operator id d = (Return unknown_task, d))
  /\ (forall t, t ∈ tasks d -> task_id t = id ->
        operator_id t <> username operator ->
        get_task_result operator id d = (Return unauthorized, d)
        /\ delete_task operator id d = (Return unauthorized, d))
  /\ unauthorized <> unknown_task
  /\ body unauthorized !! "result" = None
  /\ (forall r d',
        get_task_result operator id d = (Return r, d') ->
        is_Some (body r !! "result") \/ body r !! "status" = Some (JBool true) ->
        exists t, t ∈ tasks d /\ task_id t = id
                  /\ operator_id t = username operator
                  /\ body r !! "result" = Some (of_option_str (output t))
                  /\ d' = d)
  /\ (forall r d',
        delete_task operator id d = (Return r, d') ->
        d' <> d \/ body r !! "status" = Some (JBool true) ->
        exists t, t ∈ tasks d /\ task_id t = id
                  /\ operator_id t = username operator
                  /\ d' = delete_row t d
                  /\ ~ exists t', t' ∈ tasks d' /\ task_id t' = id).
Proof.
  intros Hpk. rewrite get_task_result_cases, delete_task_cases.
  split; [|split; [|split; [|split; [|split]]]].
  - intros Hno. apply query_first_none_iff in Hno. rewrite Hno. auto.
  - intros t Hin <- Hne.
    rewrite (query_first_primary_key _ t Hpk Hin).
    apply String.eqb_neq in Hne. rewrite Hne. auto.
  - intros H. apply (f_equal status_code) in H. discriminate H.
  - reflexivity.
  - intros r d' H Hres. injection H as <- <-.
    destruct (query_first _ _) as [t|] eqn:E.
    + apply find_some in E as [Hin Hid]. apply list_elem_of_In in Hin.
      apply String.eqb_eq in Hid.
      destruct (String.eqb_spec (operator_id t) (username operator)) as [Ho|Ho].
      * exists t. repeat split; auto.
      * exfalso. destruct Hres as [[v Hv]|Hs]; vm_compute in *; congruence.
    + exfalso. destruct Hres as [[v Hv]|Hs]; vm_compute in *; congruence.
  - intros r d' H Hres.
    destruct (query_first _ _) as [t|] eqn:E.
    + apply find_some in E as [Hin Hid]. apply list_elem_of_In in Hin.
      apply String.eqb_eq in Hid.
      destruct (String.eqb_spec (operator_id t) (username operator)) as [Ho|Ho].
      * injection H as <- <-. exists t. repeat split; auto.
        intros (t' & Hin' & Hid'). unfold delete_row in Hin'; simpl in Hin'.
        apply list_elem_of_In, filter_In in Hin' as [_ Hk].
        apply negb_true_iff, String.eqb_neq in Hk. congruence.
      * injection H as <- <-. exfalso.
        destruct Hres as [Hd|Hs]; [congruence|vm_compute in Hs; congruence].
    + injection H as <- <-. exfalso.
      destruct Hres as [Hd|Hs]; [congruence|vm_compute in Hs; congruence].
Qed.

End Ownership.

Section OwnershipExample.
Import Admin.

(** Bob asks for, and tries to delete, a task that alice created. *)
Lemma task_ownership_isolation_witness :
  let t1 := mkTask "t1" "alice" (JStr "abc123") (JStr "CMD") (JObj ∅)
                   (Some "root") (Timestamp 10) in
  let bob := mkOperator "bob" "pk" "hunter2" (Some "tok") (Some (Timestamp 100)) in
  let d := mkDb [bob] [t1] in
  get_task_result bob "t1" d = (Return unauthorized, d)
  /\ delete_task bob "t1" d = (Return unauthorized, d).
Proof.
  intros t1 bob d.
  refine (proj1 (proj2 (task_ownership_isolation bob "t1" d _)) t1 _ _ _).
  - apply NoDup_singleton.
  - apply list_elem_of_here.
  - reflexivity.
  - discriminate.
Defined.

End OwnershipExample.

(** ** The token request (request_token) *)

Section TokenRequest.
Import Admin.

Variable bytes : Type.
Variable encode_utf8 : string -> bytes.
Variable decode_utf8 : bytes -> option string.
Variable decrypt_and_verify : bytes -> Operator -> option bytes.

Local Abbreviation request_token :=
  (Admin.request_token bytes encode_utf8 decode_utf8 decrypt_and_verify).
Local Abbreviation fails_authentication :=
  (fails_authentication bytes encode_utf8 decode_utf8 decrypt_and_verify).
Local Abbreviation authenticates :=
  (authenticates bytes encode_utf8 decode_utf8 decrypt_and_verify).

Lemma length_zero_iff (s : string) : Nat.eqb (String.length s) 0 = true <-> s = "".
Proof. destruct s; simpl; split; congruence. Qed.

(** Without both headers, or with an empty one, the request is turned down
    before any operator is looked up. *)
Lemma request_token_not_submitted (request : Request) (n n' : datetime)
  (fresh : string) (d : Db) :
  (forall x_id x_signature, ~ submission request x_id x_signature) ->
  request_token request n n' fresh d = (Return key_failure, d).
Proof.
  intros Hno. unfold Admin.request_token. cbn zeta. cbn [existsb].
  destruct (headers_get _ "X-ID") as [x|] eqn:Ex; [|reflexivity].
  destruct (headers_get _ "X-Signature") as [g|] eqn:Eg; [|reflexivity].
  destruct (Nat.eqb (String.length x) 0) eqn:Lx; [reflexivity|].
  destruct (Nat.eqb (String.length g) 0) eqn:Lg; [reflexivity|].
  exfalso. apply (Hno x g). unfold submission. repeat split; auto.
  - intros ->. discriminate Lx.
  - intros ->. discriminate Lg.
Qed.

(** The answer to a submission, by the checks it passes. *)
Lemma request_token_submitted (request : Request) (x_id x_signature : string)
  (n n' : datetime) (fresh : string) (d : Db) :
  submission request x_id x_signature ->
  request_token request n n' fresh d
  = match operator_named d x_id with
    | None => (Return (mkResponse (failure_body UnknownOperator) 400), d)
    | Some operator =>
        match decrypt_and_verify (encode_utf8 x_signature) operator with
        | None => (Return (mkResponse (failure_body BadSignature) 400), d)
        | Some message =>
            match decode_utf8 message with
            | None => (Raise UnicodeDecodeError, d)
            | Some text =>
                if String.eqb text (login_secret operator)
                then
                  match auth_token_expiry operator with
                  | Some expiry =>
                      if strptime expiry >? n
                      then (Return (mkResponse (token_body (auth_token operator)) 200), d)
                      else (Return (mkResponse (token_body (Some fresh)) 200),
                            snd (mint_token operator n' fresh d))
                  | None =>
                      (Return (mkResponse (token_body (Some fresh)) 200),
                       snd (mint_token operator n' fresh d))
                  end
                else (Return (mkResponse (failure_body SecretMismatch) 400), d)
            end
        end
    end.
Proof.
  intros (Hx & Hg & Nx & Ng). unfold Admin.request_token. cbn zeta. cbn [existsb].
  rewrite Hx, Hg.
  destruct (Nat.eqb (String.length x_id) 0) eqn:Lx;
    [apply length_zero_iff in Lx; contradiction|].
  destruct (Nat.eqb (String.length x_signature) 0) eqn:Lg;
    [apply length_zero_iff in Lg; contradiction|].
  simpl. step_handler. unfold operator_named.
  destruct (query_first _ _) as [op|]; [|reflexivity].
  destruct (decrypt_and_verify _ _) as [m|]; [|reflexivity].
  destruct (decode_utf8 m) as [text|]; [|reflexivity].
  destruct (String.eqb text (login_secret op)); [|reflexivity].
  simpl. destruct (auth_token_expiry op) as [e|]; [|reflexivity].
  destruct (strptime e >? n); reflexivity.
Qed.

Lemma submission_dec (request : Request) :
  (exists x_id x_signature, submission request x_id x_signature)
  \/ (forall x_id x_signature, ~ submission request x_id x_signature).
Proof.
  unfold submission.
  destruct (headers_get (headers request) "X-ID") as [x|];
    [|right; intros ? ? (H & _); discriminate H].
  destruct (headers_get (headers request) "X-Signature") as [g|];
    [|right; intros ? ? (_ & H & _); discriminate H].
  destruct (decide (x = "")) as [->|Nx];
    [right; intros ? ? ([= <-] & _ & H & _); contradiction|].
  destruct (decide (g = "")) as [->|Ng];
    [right; intros ? ? (_ & [= <-] & _ & H); contradiction|].
  left. exists x, g. auto.
Qed.

Lemma operator_named_username (d : Db) (name : string) (operator : Operator) :
  operator_named d name = Some operator -> username operator = name.
Proof.
  unfold operator_named, query_first. intros H.
  apply find_some in H as [_ H]. apply String.eqb_eq. exact H.
Qed.

(** After the commit, the name selects the committed object. *)
Lemma operator_named_commit (d : Db) (operator operator' : Operator) :
  operator_named d (username operator') = Some operator ->
  operator_named (commit_operator operator' d) (username operator')
  = Some operator'.
Proof.
  unfold operator_named, query_first, commit_operator; cbn [operators].
  induction (operators d) as [|o rows IH]; [discriminate|].
  simpl. destruct (String.eqb_spec (username o) (username operator')) as [E|E].
  - intros _. rewrite String.eqb_refl. reflexivity.
  - apply String.eqb_neq in E. rewrite E. exact IH.
Qed.

Lemma mint_token_db (operator : Operator) (n : datetime) (fresh : string) (d : Db) :
  snd (mint_token operator n fresh d)
  = commit_operator
      (with_token operator fresh (strftime (n + timedelta_hours 6))) d.
Proof. reflexivity. Qed.

(** A token request that is answered 200 authenticated its operator, and
    either reused the stored token or minted one. *)
Lemma request_token_ok_inv (request : Request) (n n' : datetime) (fresh : string)
  (d d1 : Db) (r : response) :
  request_token request n n' fresh d = (Return r, d1) ->
  status_code r = 200 ->
  exists operator,
    authenticates request d operator
    /\ ((exists expiry, auth_token_expiry operator = Some expiry
                        /\ n < strptime expiry
                        /\ r = mkResponse (token_body (auth_token operator)) 200
                        /\ d1 = d)
        \/ ((auth_token_expiry operator = None
             \/ exists expiry, auth_token_expiry operator = Some expiry
                               /\ strptime expiry <= n)
            /\ r = mkResponse (token_body (Some fresh)) 200
            /\ d1 = commit_operator
                      (with_token operator fresh
                                  (strftime (n' + timedelta_hours 6))) d)).
Proof.
  intros Hrun Hok.
  destruct (submission_dec request) as [(x & g & Hsub)|Hno].
  2:{ rewrite (request_token_not_submitted _ _ _ _ _ Hno) in Hrun.
      injection Hrun as <- <-. discriminate Hok. }
  rewrite (request_token_submitted _ x g _ _ _ _ Hsub) in Hrun.
  destruct (operator_named d x) as [op|] eqn:Eop;
    [|injection Hrun as <- <-; discriminate Hok].
  destruct (decrypt_and_verify _ _) as [m|] eqn:Em;
    [|injection Hrun as <- <-; discriminate Hok].
  destruct (decode_utf8 m) as [text|] eqn:Et; [|discriminate Hrun].
  destruct (String.eqb_spec text (login_secret op)) as [->|Hne];
    [|injection Hrun as <- <-; discriminate Hok].
  exists op. split; [exists x, g, m; auto|].
  rewrite mint_token_db in Hrun.
  destruct (auth_token_expiry op) as [e|].
  - destruct (strptime e >? n) eqn:Cmp; injection Hrun as <- <-.
    + left. exists e. repeat split; auto. lia.
    + right. split; [right; exists e; split; [reflexivity|lia]|]. auto.
  - injection Hrun as <- <-. right. auto.
Qed.

Lemma failure_body_inj (k1 k2 : auth_failure) :
  failure_body k1 = failure_body k2 -> k1 = k2.
Proof.
  destruct k1, k2; intros H; try reflexivity;
    try (apply (f_equal (fun m => m !! "message")) in H; vm_compute in H;
         discriminate H);
    apply (f_equal (fun m => m !! "msg")) in H; vm_compute in H; discriminate H.
Qed.

(** A verified plaintext that is not UTF-8 passes none of the answers
    below: the decoding raises. *)
Lemma request_token_undecodable (request : Request) (x_id x_signature : string)
  (operator : Operator) (message : bytes)
  (n n' : datetime) (fresh : string) (d : Db) :
  submission request x_id x_signature ->
  operator_named d x_id = Some operator ->
  decrypt_and_verify (encode_utf8 x_signature) operator = Some message ->
  decode_utf8 message = None ->
  request_token request n n' fresh d = (Raise UnicodeDecodeError, d).
Proof.
  intros Hs Hop Hv Hd.
  rewrite (request_token_submitted _ x_id x_signature _ _ _ _ Hs), Hop, Hv, Hd.
  reflexivity.
Qed.

(** C1 (as amended): a token request that does not authenticate because
    the operator named in X-ID is unknown, or the signature does not decrypt
    and verify, or the decrypted plaintext decodes to a text that is not the
    operator's login secret, is answered 400 with status false and leaves
    the store as it was, and the body names the check that failed: two such
    failing runs have equal bodies exactly when they fail the same check. *)
Theorem request_token_failure_names_check
  (request1 request2 : Request) (d1 d2 : Db) (k1 k2 : auth_failure)
  (n1 n1' n2 n2' : datetime) (fresh1 fresh2 : string) :
  fails_authentication request1 d1 k1 ->
  fails_authentication request2 d2 k2 ->
  exists r1 r2,
    request_token request1 n1 n1' fresh1 d1 = (Return r1, d1)
    /\ request_token request2 n2 n2' fresh2 d2 = (Return r2, d2)
    /\ status_code r1 = 400 /\ status_code r2 = 400
    /\ body r1 !! "status" = Some (JBool false)
    /\ body r2 !! "status" = Some (JBool false)
    /\ body r1 = failure_body k1 /\ body r2 = failure_body k2
    /\ (body r1 = body r2 <-> k1 = k2).
Proof.
  assert (Hone : forall request d k n n' fresh,
             fails_authentication request d k ->
             request_token request n n' fresh d
             = (Return (mkResponse (failure_body k) 400), d)).
  { intros request d k n n' fresh Hf.
    destruct Hf as [x g Hs Hop | x g op Hs Hop Hv | x g op m text Hs Hop Hv Hd Hne];
      rewrite (request_token_submitted _ x g _ _ _ _ Hs), Hop; try reflexivity;
      rewrite Hv; try reflexivity.
    rewrite Hd. apply String.eqb_neq in Hne. rewrite Hne. reflexivity. }
  intros H1 H2.
  exists (mkResponse (failure_body k1) 400), (mkResponse (failure_body k2) 400).
  rewrite (Hone _ _ _ _ _ _ H1), (Hone _ _ _ _ _ _ H2). cbn [body status_code].
  repeat split; try reflexivity.
  - destruct k1; reflexivity.
  - destruct k2; reflexivity.
  - apply failure_body_inj.
  - intros ->; reflexivity.
Qed.

Lemma strftime_resolution (x : datetime) :
  x - microseconds_per_second < strptime (strftime x) <= x.
Proof.
  unfold strptime, strftime, microseconds_per_second; cbn [second_of].
  pose proof (Z.div_mod x 1000000 ltac:(lia)) as Hdm.
  pose proof (Z.mod_pos_bound x 1000000 ltac:(lia)) as Hb. lia.
Qed.

(** C4: (1) two successful token requests for the same operator, the
    second made on the store that the first left and before the stored
    expiry, return the same token, and the second changes nothing; (2) a
    successful request made when the operator has no expiry stored, or one
    that is not in the future, returns the freshly drawn token and stores it
    with the expiry "now + 6 hours" (written at the resolution of a second);
    (3) a submission that authenticates is answered 200. *)
Theorem token_issue_or_reuse :
  (forall (request1 request2 : Request) (name : string) (d d1 d2 : Db)
          (n1 n1' n2 n2' : datetime) (fresh1 fresh2 : string) (r1 r2 : response),
      headers_get (headers request1) "X-ID" = Some name ->
      headers_get (headers request2) "X-ID" = Some name ->
      request_token request1 n1 n1' fresh1 d = (Return r1, d1) ->
      status_code r1 = 200 ->
      request_token request2 n2 n2' fresh2 d1 = (Return r2, d2) ->
      status_code r2 = 200 ->
      (exists expiry, stored_expiry d1 name = Some expiry /\ n2 < strptime expiry) ->
      body r2 !! "token" = body r1 !! "token"
      /\ body r1 !! "token" = Some (of_option_str (stored_token d1 name))
      /\ d2 = d1)
  /\ (forall (request : Request) (name : string) (d d1 : Db)
             (n n' : datetime) (fresh : string) (r : response),
        headers_get (headers request) "X-ID" = Some name ->
        request_token request n n' fresh d = (Return r, d1) ->
        status_code r = 200 ->
        (stored_expiry d name = None
         \/ exists expiry, stored_expiry d name = Some expiry
                           /\ strptime expiry <= n) ->
        body r !! "token" = Some (JStr fresh)
        /\ stored_token d1 name = Some fresh
        /\ stored_expiry d1 name = Some (strftime (n' + timedelta_hours 6))
        /\ (forall expiry, stored_expiry d1 name = Some expiry ->
               n' + timedelta_hours 6 - microseconds_per_second
               < strptime expiry <= n' + timedelta_hours 6))
  /\ (forall (request : Request) (operator : Operator) (d : Db)
             (n n' : datetime) (fresh : string),
        authenticates request d operator ->
        exists r d1, request_token request n n' fresh d = (Return r, d1)
                     /\ status_code r = 200).
Proof.
  split; [|split].
  - intros request1 request2 name d d1 d2 n1 n1' n2 n2' fresh1 fresh2 r1 r2
           Hx1 Hx2 Hrun1 Hok1 Hrun2 Hok2 (e & He & Hlt).
    apply request_token_ok_inv in Hrun1
      as (op1 & (x1 & g1 & m1 & (Hh1 & _) & Hop1 & _) & Hcase1); [|exact Hok1].
    apply request_token_ok_inv in Hrun2
      as (op2 & (x2 & g2 & m2 & (Hh2 & _) & Hop2 & _) & Hcase2); [|exact Hok2].
    assert (x1 = name) as -> by congruence.
    assert (x2 = name) as -> by congruence.
    unfold stored_expiry, stored_token in *. rewrite Hop2 in He |- *.
    cbn in He |- *.
    destruct Hcase2 as [(e2 & He2 & _ & -> & ->)|([Hn|(e2 & He2 & Hle)] & _)];
      [|congruence|assert (e2 = e) by congruence; subst; lia].
    destruct Hcase1 as [(e1 & _ & _ & -> & ->)|(_ & -> & ->)].
    + assert (op2 = op1) as -> by congruence. auto.
    + pose proof (operator_named_username _ _ _ Hop1) as Hu.
      rewrite <- Hu in Hop2.
      change (username op1)
        with (username (with_token op1 fresh1 (strftime (n1' + timedelta_hours 6))))
        in Hop2.
      rewrite <- Hu in Hop1.
      change (username op1)
        with (username (with_token op1 fresh1 (strftime (n1' + timedelta_hours 6))))
        in Hop1.
      rewrite (operator_named_commit _ _ _ Hop1) in Hop2.
      injection Hop2 as <-. auto.
  - intros request name d d1 n n' fresh r Hx Hrun Hok Hexp.
    apply request_token_ok_inv in Hrun
      as (op & (x & g & m & (Hh & _) & Hop & _) & Hcase); [|exact Hok].
    assert (x = name) as -> by congruence.
    unfold stored_expiry, stored_token in *. rewrite Hop in Hexp. cbn in Hexp.
    destruct Hcase as [(e & He & Hlt & _)|(_ & -> & ->)].
    + exfalso. destruct Hexp as [Hn|(e' & He' & Hle)]; [congruence|].
      assert (e' = e) by congruence; subst; lia.
    + pose proof (operator_named_username _ _ _ Hop) as Hu.
      rewrite <- Hu in Hop |- *.
      change (username op)
        with (username (with_token op fresh (strftime (n' + timedelta_hours 6))))
        in Hop |- *.
      rewrite (operator_named_commit _ _ _ Hop). cbn.
      split; [reflexivity|]. split; [reflexivity|]. split; [reflexivity|].
      intros e [= <-]. apply strftime_resolution.
  - intros request op d n n' fresh (x & g & m & Hs & Hop & Hv & Hd).
    rewrite (request_token_submitted _ x g _ _ _ _ Hs), Hop, Hv, Hd.
    rewrite String.eqb_refl.
    destruct (auth_token_expiry op) as [e|]; [destruct (strptime e >? n)|];
      eexists _, _; split; reflexivity.
Qed.

End TokenRequest.

(** ** The token request on concrete submissions *)

Section TokenRequestExamples.
Import Admin.

Import Example.

Local Abbreviation toy_fails :=
  (fails_authentication Toy.bytes Toy.encode_utf8 Toy.decode_utf8
                        Toy.decrypt_and_verify).

Lemma unknown_fails : toy_fails unknown store UnknownOperator.
Proof.
  apply (fails_unknown _ _ _ _ _ _ "mallory" "pk:s3cret"); [|reflexivity].
  repeat split; (reflexivity || discriminate).
Qed.

Lemma forged_fails : toy_fails forged store BadSignature.
Proof.
  apply (fails_signature _ _ _ _ _ _ "alice" "garbage" alice);
    [|reflexivity|reflexivity].
  repeat split; (reflexivity || discriminate).
Qed.

Lemma wrong_secret_fails : toy_fails wrong_secret store SecretMismatch.
Proof.
  apply (fails_secret _ _ _ _ _ _ "alice" "pk:guess" alice "guess" "guess");
    try reflexivity; [|discriminate].
  repeat split; (reflexivity || discriminate).
Qed.

(** C1, as stated, fails: a submission naming an unknown operator, one with
    a signature that does not verify and one carrying a wrong secret all
    fail to authenticate, and the three are answered with three different
    bodies. *)
Lemma request_token_failures_differ :
  toy_fails unknown store UnknownOperator
  /\ toy_fails forged store BadSignature
  /\ toy_fails wrong_secret store SecretMismatch
  /\ Toy.request_token unknown 0 0 "r" store
     = (Return {| body := list_to_map [("status", JBool false);
                                       ("message", JStr "Unknown operator")];
                  status_code := 400 |}, store)
  /\ Toy.request_token forged 0 0 "r" store
     = (Return {| body := list_to_map [("status", JBool false);
                                       ("msg", JStr "Couldn't verify signature")];
                  status_code := 400 |}, store)
  /\ Toy.request_token wrong_secret 0 0 "r" store
     = (Return {| body := list_to_map [("status", JBool false);
                                       ("msg", JStr "Unable to verify signature")];
                  status_code := 400 |}, store)
  /\ ~ (forall (request1 request2 : Request) (k1 k2 : auth_failure)
               (r1 r2 : response) (d1 d2 : Db),
          toy_fails request1 store k1 ->
          toy_fails request2 store k2 ->
          Toy.request_token request1 0 0 "r" store = (Return r1, d1) ->
          Toy.request_token request2 0 0 "r" store = (Return r2, d2) ->
          body r1 = body r2).
Proof.
  split; [exact unknown_fails|]. split; [exact forged_fails|].
  split; [exact wrong_secret_fails|].
  split; [reflexivity|]. split; [reflexivity|]. split; [reflexivity|].
  intros H.
  specialize (H unknown forged UnknownOperator BadSignature _ _ _ _
                unknown_fails forged_fails eq_refl eq_refl).
  apply (f_equal (fun m => m !! "msg")) in H. vm_compute in H. discriminate H.
Qed.

Lemma request_token_failure_names_check_witness :
  exists r1 r2,
    Toy.request_token unknown 0 0 "r" store = (Return r1, store)
    /\ Toy.request_token forged 5 5 "q" store = (Return r2, store)
    /\ status_code r1 = 400 /\ status_code r2 = 400
    /\ body r1 !! "status" = Some (JBool false)
    /\ body r2 !! "status" = Some (JBool false)
    /\ body r1 = failure_body UnknownOperator
    /\ body r2 = failure_body BadSignature
    /\ (body r1 = body r2 <-> UnknownOperator = BadSignature).
Proof.
  apply (request_token_failure_names_check
           Toy.bytes Toy.encode_utf8 Toy.decode_utf8 Toy.decrypt_and_verify
           unknown forged store store UnknownOperator BadSignature 0 0 5 5 "r" "q").
  - apply (fails_unknown _ _ _ _ _ _ "mallory" "pk:s3cret"); [|reflexivity].
    repeat split; (reflexivity || discriminate).
  - apply (fails_signature _ _ _ _ _ _ "alice" "garbage" alice);
      [|reflexivity|reflexivity].
    repeat split; (reflexivity || discriminate).
Defined.

(** Alice authenticates at time 0 and again one second later. *)
Lemma token_issue_or_reuse_witness :
  let d1 := (Toy.request_token genuine 0 0 "tok1" store).2 in
  let r1 := mkResponse (token_body (Some "tok1")) 200 in
  let r2 := mkResponse (token_body (Some "tok1")) 200 in
  Toy.request_token genuine 0 0 "tok1" store = (Return r1, d1)
  /\ Toy.request_token genuine 1000000 1000000 "tok2" d1 = (Return r2, d1)
  /\ body r2 !! "token" = body r1 !! "token"
  /\ body r1 !! "token" = Some (of_option_str (stored_token d1 "alice"))
  /\ d1 = d1.
Proof.
  intros d1 r1 r2. split; [reflexivity|]. split; [reflexivity|].
  apply (proj1 (token_issue_or_reuse
                  Toy.bytes Toy.encode_utf8 Toy.decode_utf8 Toy.decrypt_and_verify)
               genuine genuine "alice" store d1 d1 0 0 1000000 1000000
               "tok1" "tok2" r1 r2); try reflexivity.
  exists (Timestamp 21600). split; reflexivity.
Defined.

(** The validity test of [request_token] at the instant of expiry: the
    stored token counts as expired and a new one is minted, where
    [verify_auth_token] at the same instant still accepts the old one. *)
Lemma request_token_mints_at_expiry :
  let holder := with_token alice "tok" (Timestamp 1700000000) in
  let d := mkDb [holder] [] in
  let expiry := strptime (Timestamp 1700000000) in
  Toy.request_token genuine expiry expiry "new" d
  = (Return (mkResponse (token_body (Some "new")) 200),
     mkDb [with_token alice "new" (Timestamp 1700021600)] [])
  /\ verify_auth_token (mkRequest [("Authorization", "Bearer tok")] JNull) expiry d
     = (Return (Some holder), d).
Proof. split; reflexivity. Qed.

End TokenRequestExamples.

(** ** Adding a task (add_task) *)

Section AddTaskClaims.
Import Admin.

Variable set_order : gset string -> list string.
Hypothesis set_order_perm : forall s, set_order s ≡ₚ elements s.

Lemma dict_has_false (task : gmap string json) (x : string) :
  dict_has task x = false <-> task !! x = None.
Proof. unfold dict_has. destruct (task !! x); split; congruence. Qed.

Lemma some_field_missing (task : gmap string json) :
  existsb (fun x => negb (dict_has task x)) required_fields = true
  <-> exists x, x ∈ required_fields /\ task !! x = None.
Proof.
  rewrite existsb_exists. split; intros (x & Hin & Hx); exists x.
  - apply list_elem_of_In in Hin. apply negb_true_iff, dict_has_false in Hx. auto.
  - apply list_elem_of_In in Hin. split; [exact Hin|].
    apply negb_true_iff, dict_has_false. exact Hx.
Qed.

Lemma set_order_missing (task : gmap string json) (x : string) :
  x ∈ set_order (list_to_set required_fields ∖ dom task)
  <-> x ∈ required_fields /\ task !! x = None.
Proof.
  rewrite (set_order_perm _), elem_of_elements, elem_of_difference,
    elem_of_list_to_set, not_elem_of_dom. reflexivity.
Qed.

(** C2 (as amended): for a request whose body is a JSON object, add_task
    checks that implant_id, opcode and args are present and nothing else:
    (1) when a field is missing it answers 400 with the message "Invalid
    task, missing fields: " followed by exactly the missing fields, and
    creates no task; (2) when the three are present, whatever their values,
    it stores a new task with output = none and returns it. *)
Theorem add_task_checks_presence (operator : Operator)
  (hs : list (string * string)) (task : gmap string json)
  (fresh_id : string) (now : datetime) (d : Db) :
  ((exists x, x ∈ required_fields /\ task !! x = None) ->
     exists names,
       add_task set_order operator (mkRequest hs (JObj task)) fresh_id now d
       = (Return {| body := list_to_map
                      [("status", JBool false);
                       ("msg", JStr ("Invalid task, missing fields: "
                                     ++ Str.join ", " names))];
                    status_code := 400 |}, d)
       /\ NoDup names
       /\ forall x, x ∈ names <-> x ∈ required_fields /\ task !! x = None)
  /\ (forall implant json_opcode json_args,
        task !! "implant_id" = Some implant ->
        task !! "opcode" = Some json_opcode ->
        task !! "args" = Some json_args ->
        let t := {| task_id := fresh_id; operator_id := username operator;
                    implant_id := implant; opcode := json_opcode;
                    args := json_args; output := None;
                    created_at := strftime now |} in
        add_task set_order operator (mkRequest hs (JObj task)) fresh_id now d
        = (Return {| body := list_to_map [("status", JBool true);
                                          ("task", toJSON t)];
                     status_code := 200 |},
           {| operators := operators d; tasks := tasks d ++ [t] |})
        /\ output t = None).
Proof.
  split.
  - intros Hmiss. apply some_field_missing in Hmiss.
    exists (set_order (list_to_set required_fields ∖ dom task)).
    split; [|split].
    + unfold add_task; cbn [json_body]. rewrite Hmiss. reflexivity.
    + rewrite (set_order_perm _). apply NoDup_elements.
    + apply set_order_missing.
  - intros implant json_opcode json_args Hi Ho Ha t.
    split; [|reflexivity].
    unfold add_task; cbn [json_body].
    destruct (existsb _ _) eqn:E.
    + apply some_field_missing in E as (x & Hin & Hx).
      unfold required_fields in Hin.
      repeat (apply elem_of_cons in Hin as [->|Hin]; [congruence|]).
      inversion Hin.
    + rewrite Hi, Ho, Ha. reflexivity.
Qed.

End AddTaskClaims.

Section AddTaskExamples.
Import Admin Example.

(** C2, as stated, fails: the opcode "BOGUS" is no member of the
    enumeration, and a request that carries it with the other two fields is
    answered 200 and its task is stored. *)
Lemma add_task_accepts_unknown_opcode :
  let t := {| task_id := "id1"; operator_id := "alice";
              implant_id := JStr "abc123"; opcode := JStr "BOGUS";
              args := JObj (list_to_map [("cmd", JStr "whoami")]);
              output := None; created_at := Timestamp 0 |} in
  Opcodes.get_by_name "BOGUS" = None
  /\ add_task elements alice (mkRequest [] (JObj bogus_task)) "id1" 0 store
     = (Return {| body := list_to_map [("status", JBool true); ("task", toJSON t)];
                  status_code := 200 |},
        {| operators := [alice]; tasks := [t] |}).
Proof. split; reflexivity. Qed.

(** A body without opcode and args. *)
Lemma add_task_checks_presence_witness :
  exists names,
    add_task elements alice
             (mkRequest [] (JObj (list_to_map [("implant_id", JStr "abc123")])))
             "id1" 0 store
    = (Return {| body := list_to_map
                   [("status", JBool false);
                    ("msg", JStr ("Invalid task, missing fields: "
                                  ++ Str.join ", " names))];
                 status_code := 400 |}, store)
    /\ NoDup names
    /\ forall x, x ∈ names
                 <-> x ∈ required_fields
                     /\ (list_to_map [("implant_id", JStr "abc123")]
                          : gmap string json) !! x = None.
Proof.
  apply (proj1 (add_task_checks_presence elements (fun s => reflexivity _) alice []
                  (list_to_map [("implant_id", JStr "abc123")]) "id1" 0 store)).
  exists "opcode". split; [|reflexivity].
  unfold required_fields. repeat constructor.
Defined.

End AddTaskExamples.

(** ** The client (client/comms.py) *)

Section ClientClaims.
Import Comms.

Variable enc_and_sign_secret : OperatorConfig -> string.
Variable repr : json -> string.

Local Abbreviation ensure_token := (Comms.ensure_token enc_and_sign_secret repr).
Local Abbreviation handle_server_auth :=
  (Comms.handle_server_auth enc_and_sign_secret).
Local Abbreviation list_implants := (Comms.list_implants enc_and_sign_secret repr).
Local Abbreviation implant_exists :=
  (Comms.implant_exists enc_and_sign_secret repr).

(** C7: the path that the client's get_task_result requests,
    /op/tasks/results/{task_id}, matches no rule of the listener for any
    task id (the request is answered 404), while the handler is mounted at
    /op/tasks/result/{task_id}. *)
Theorem get_task_result_url_not_routed :
  (forall (config : OperatorConfig) (task_id : string),
      exists rest,
        split_on "/" (path (get_task_result_url config task_id))
        = "" :: "op" :: "tasks" :: "results" :: rest
        /\ Admin.dispatch GET (path (get_task_result_url config task_id)) = None)
  /\ path (get_task_result_url (mkConfig "alice" "10.0.0.1" 80 (JStr "tok")) "abc")
     = "/op/tasks/results/abc"
  /\ Admin.dispatch GET "/op/tasks/results/abc" = None
  /\ Admin.dispatch GET "/op/tasks/result/abc"
     = Some (Admin.view_get_task_result, ["abc"]).
Proof.
  split; [|repeat split; reflexivity].
  intros config task_id. exists (split_on "/" task_id).
  assert (Hs : split_on "/" (path (get_task_result_url config task_id))
               = "" :: "op" :: "tasks" :: "results" :: split_on "/" task_id).
  { reflexivity. }
  split; [exact Hs|].
  unfold Admin.dispatch, Admin.url_map, Admin.dispatch_in, Admin.match_rule.
  rewrite Hs. reflexivity.
Qed.

(** Running a sequence: the second part runs on the state that the first
    left, unless the first exits or raises. *)
Lemma run_bind {A B S} (serve : S -> sent -> http_reply * S)
  (c : client A) (f : A -> client B) (st : S) :
  run serve (client_bind c f) st
  = match run serve c st with
    | (Returned a, st') => run serve (f a) st'
    | (Exited code, st') => (Exited code, st')
    | (Uncaught e, st') => (Uncaught e, st')
    end.
Proof.
  revert st. induction c as [a|code|e|m u h j k IH]; intros st; simpl;
    try reflexivity.
  destruct (serve st _) as [reply st']. apply IH.
Qed.

Lemma implant_matches_summary (entry : string * gmap string json)
  (id_prefix : string) :
  implant_matches (implant_summary entry) id_prefix
  = Done (Str.startswith entry.1 id_prefix).
Proof.
  unfold implant_matches, implant_summary. rewrite lookup_insert_eq.
  reflexivity.
Qed.

(** The scan over a registry's summaries is the search for a matching id. *)
Lemma implant_exists_loop_registry
  (registry : list (string * gmap string json)) (id_prefix : string) :
  implant_exists_loop (implant_summary <$> registry) id_prefix
  = Done (existsb (fun entry => String.prefix id_prefix entry.1) registry).
Proof.
  induction registry as [|[id attrs] registry IH]; [reflexivity|].
  rewrite fmap_cons. cbn [implant_exists_loop].
  rewrite implant_matches_summary. unfold Str.startswith.
  unfold mbind, client_bind_inst; cbn [client_bind existsb fst].
  destruct (String.prefix id_prefix id); [reflexivity|exact IH].
Qed.

(** C8: whenever list_implants returns the registry, implant_exists
    returns true if and only if the id of some registered implant starts
    with the prefix; with "abc123" and "abcdef" registered, the scan finds
    "abc" and does not find "xyz". *)
Theorem implant_exists_iff_prefix :
  (forall (S : Type) (serve : S -> sent -> http_reply * S) (st st' : S)
          (config : OperatorConfig)
          (registry : list (string * gmap string json)) (id_prefix : string),
      run serve (list_implants config) st
      = (Returned (JArr (implant_summary <$> registry)), st') ->
      exists found : bool,
        run serve (implant_exists config id_prefix) st = (Returned found, st')
        /\ (found = true
            <-> exists entry, entry ∈ registry
                              /\ Str.startswith entry.1 id_prefix = true))
  /\ (let registry := [("abc123", ∅); ("abcdef", ∅)] in
      implant_exists_loop (implant_summary <$> registry) "abc" = Done true
      /\ implant_exists_loop (implant_summary <$> registry) "xyz" = Done false).
Proof.
  split; [|split; reflexivity].
  intros S serve st st' config registry id_prefix Hlist.
  exists (existsb (fun entry => String.prefix id_prefix entry.1) registry).
  split.
  - unfold Comms.implant_exists, mbind, client_bind_inst.
    rewrite run_bind, Hlist. cbn [iterate client_bind].
    rewrite implant_exists_loop_registry. reflexivity.
  - rewrite existsb_exists. unfold Str.startswith.
    split; intros (entry & Hin & Hp); exists entry;
      (split; [apply list_elem_of_In; exact Hin|exact Hp]).
Qed.

(** C10 (as amended): for a configuration that holds a non-empty token
    [t], ensure_token first sends the status request, whose only header is
    "Authentication: Bearer t"; the request has no Authorization header,
    which is the only header verify_auth_token reads, so on every store and
    at every time, valid token or not, the check finds no operator and the
    wrapper answers 401 with status false, whatever handler it wraps; on that
    reply, and on every reply whose status is false, ensure_token goes on to
    handle_server_auth, which sends the token request with the X-ID and
    X-Signature headers; on a reply whose status is true it keeps the
    token. *)
Theorem status_request_lacks_authorization
  (config : OperatorConfig) (t : string) :
  auth_token config = JStr t ->
  t <> "" ->
  let status_headers := [("Authentication", "Bearer " ++ t)] in
  let status_request := mkRequest status_headers JNull in
  let authenticate_again :=
    (token ← handle_server_auth config; mret (set_auth_token config token)) in
  exists k k',
    ensure_token config
    = Send GET (mkUrl (c2 config) (c2_port config) "/op/auth/token/status")
           status_headers None k
    /\ headers_get status_headers "Authorization" = None
    /\ (forall (func : Operator -> M response) (d : Db) (now : datetime),
          Admin.verify_auth_token status_request now d = (Return None, d)
          /\ Admin.verified func status_request now d
             = (Return {| body := list_to_map [("status", JBool false);
                                               ("msg", JStr "Not authenticated")];
                          status_code := 401 |}, d)
          /\ k (as_reply (Admin.verified func status_request now d).1)
             = authenticate_again)
    /\ (forall (code : Z) (m : gmap string json) (status : json),
          m !! "status" = Some status ->
          k (Reply code (Some (JObj m)))
          = if truthy status then Done config else authenticate_again)
    /\ handle_server_auth config
       = Send GET (mkUrl (c2 config) (c2_port config) "/op/auth/token/request")
              [("X-ID", name config);
               ("X-Signature", enc_and_sign_secret config)] None k'.
Proof.
  intros Htok Hne status_headers status_request authenticate_again.
  destruct config as [nm host prt tok]; cbn in Htok; subst tok.
  destruct t as [|c t]; [contradiction|].
  assert (Hnone : headers_get status_headers "Authorization" = None)
    by reflexivity.
  assert (Hwrap : forall func d now,
             Admin.verified func status_request now d
             = (Return {| body := list_to_map [("status", JBool false);
                                               ("msg", JStr "Not authenticated")];
                          status_code := 401 |}, d)).
  { intros func d now. apply verified_without_operator. reflexivity. }
  eexists _, _. split; [reflexivity|]. split; [exact Hnone|].
  split; [|split].
  - intros func d now. rewrite Hwrap. split; [|split]; reflexivity.
  - intros code m status Hs.
    cbn [client_bind json_field fst snd]. rewrite Hs.
    cbn [client_bind]. destruct (truthy status); reflexivity.
  - reflexivity.
Qed.

End ClientClaims.

Section ClientExamples.
Import Comms Example.


(** The client asks a server whose registry holds "abc123" and "abcdef"
    for an implant whose id starts with "abc". *)
Lemma implant_exists_iff_prefix_witness :
  exists found : bool,
    run (registry_server registry)
        (implant_exists (fun _ => "sig") (fun _ => "") config "abc") tt
    = (Returned found, tt)
    /\ (found = true
        <-> exists entry, entry ∈ registry
                          /\ Str.startswith entry.1 "abc" = true).
Proof.
  apply (proj1 (implant_exists_iff_prefix (fun _ => "sig") (fun _ => ""))
               unit (registry_server registry) tt tt config registry "abc").
  vm_compute. reflexivity.
Defined.

(** Alice's token "tok" is good until second 1700000000: presented in the
    Authorization header at time 0 it is accepted, and the status request
    that the client builds for it is answered 401 by the wrapper around a
    handler that would answer 200. *)
Lemma status_request_lacks_authorization_witness :
  let holder := with_token alice "tok" (Timestamp 1700000000) in
  let d := mkDb [holder] [] in
  let ok := fun _ : Operator =>
    Admin.json_response [("status", JBool true)] 200 in
  Admin.verify_auth_token (mkRequest [("Authorization", "Bearer tok")] JNull) 0 d
  = (Return (Some holder), d)
  /\ Admin.verified ok (mkRequest [("Authentication", "Bearer tok")] JNull) 0 d
     = (Return {| body := list_to_map [("status", JBool false);
                                       ("msg", JStr "Not authenticated")];
                  status_code := 401 |}, d).
Proof.
  intros holder d ok. split; [reflexivity|].
  destruct (status_request_lacks_authorization
              (fun _ => "sig") (fun _ => "") config "tok" eq_refl
              ltac:(discriminate))
    as (k & k' & _ & _ & H & _).
  exact (proj1 (proj2 (H ok d 0))).
Defined.

(** C10, as stated, fails on the listener as it is written: no rule of its
    URL map is /op/auth/token/status, so the status request of a client that
    holds alice's valid token "tok" is answered 404 with a page that is not
    JSON, not turned away as unauthenticated; check_auth_token raises on it
    and ensure_token ends with that exception, without the second
    authentication, which the listener would have answered. *)
Lemma ensure_token_status_not_routed :
  let holder := with_token alice "tok" (Timestamp 1700000000) in
  let d := mkDb [holder] [] in
  let serve := listener (token_endpoint Toy.bytes Toy.encode_utf8 Toy.decode_utf8
                                        Toy.decrypt_and_verify 0 0 "new") in
  Admin.dispatch GET "/op/auth/token/status" = None
  /\ Admin.verify_auth_token (mkRequest [("Authorization", "Bearer tok")] JNull) 0 d
     = (Return (Some holder), d)
  /\ serve d (mkSent GET (mkUrl "10.0.0.1" 80 "/op/auth/token/status")
                    [("Authentication", "Bearer tok")] None)
     = (Reply 404 None, d)
  /\ run serve (ensure_token (fun _ => "pk:s3cret") (fun _ => "") config) d
     = (Uncaught JSONDecodeError, d)
  /\ run serve (handle_server_auth (fun _ => "pk:s3cret") config) d
     = (Returned (JStr "tok"), d).
Proof. repeat split; reflexivity. Qed.

End ClientExamples.

(** * Further properties of the listener *)

Section ListenerFacts.
Import Admin.

Variable bytes : Type.
Variable encode_utf8 : string -> bytes.
Variable decode_utf8 : bytes -> option string.
Variable decrypt_and_verify : bytes -> Operator -> option bytes.

Local Abbreviation request_token :=
  (Admin.request_token bytes encode_utf8 decode_utf8 decrypt_and_verify).
Local Abbreviation authenticates :=
  (authenticates bytes encode_utf8 decode_utf8 decrypt_and_verify).

(** X1: a token request in which X-ID or X-Signature is absent or empty is
    answered 400 "Unknown operator key" without looking at the store or at
    the signature, and the store is left as it was. *)
Theorem request_token_requires_both_headers
  (request : Request) (n n' : datetime) (fresh : string) (d : Db) :
  headers_get (headers request) "X-ID" = None
  \/ headers_get (headers request) "X-ID" = Some ""
  \/ headers_get (headers request) "X-Signature" = None
  \/ headers_get (headers request) "X-Signature" = Some "" ->
  request_token request n n' fresh d
  = (Return {| body := list_to_map [("status", JBool false);
                                    ("message", JStr "Unknown operator key")];
               status_code := 400 |}, d).
Proof.
  intros H.
  apply (request_token_not_submitted bytes encode_utf8 decode_utf8
           decrypt_and_verify).
  intros x g (Hx & Hg & Nx & Ng).
  destruct H as [H|[H|[H|H]]]; congruence.
Qed.

(** The store after a token request is the store before it, or that store
    with a token minted for the operator that X-ID names. *)
Lemma request_token_store (request : Request) (n n' : datetime) (fresh : string)
  (d : Db) :
  snd (request_token request n n' fresh d) = d
  \/ exists x_id operator,
       headers_get (headers request) "X-ID" = Some x_id
       /\ operator_named d x_id = Some operator
       /\ snd (request_token request n n' fresh d)
          = commit_operator
              (with_token operator fresh (strftime (n' + timedelta_hours 6))) d.
Proof.
  destruct (submission_dec request) as [(x & g & Hsub)|Hno].
  2:{ left. rewrite (request_token_not_submitted _ _ _ _ _ _ _ _ _ Hno).
      reflexivity. }
  rewrite (request_token_submitted _ _ _ _ _ x g _ _ _ _ Hsub).
  destruct (operator_named d x) as [op|] eqn:Eop; [|left; reflexivity].
  destruct (decrypt_and_verify _ _) as [m|]; [|left; reflexivity].
  destruct (decode_utf8 m) as [text|]; [|left; reflexivity].
  destruct (String.eqb text (login_secret op)); [|left; reflexivity].
  destruct Hsub as (Hx & _).
  destruct (auth_token_expiry op) as [e|]; [destruct (strptime e >? n)|];
    try (left; reflexivity);
    right; exists x, op; repeat split; auto.
Qed.

Lemma commit_operator_rows (operator : Operator) (d : Db) (o : Operator) :
  o ∈ operators (commit_operator operator d) ->
  (o ∈ operators d /\ username o <> username operator)
  \/ (o = operator /\ exists o', o' ∈ operators d /\ username o' = username operator).
Proof.
  unfold commit_operator; cbn [operators]. intros Hin.
  apply list_elem_of_In, in_map_iff in Hin as (o' & Ho & Hin').
  apply list_elem_of_In in Hin'.
  destruct (String.eqb_spec (username o') (username operator)) as [E|E]; subst o.
  - right. split; [reflexivity|]. exists o'. auto.
  - left. auto.
Qed.

Lemma commit_operator_keeps (operator : Operator) (d : Db) (o : Operator) :
  o ∈ operators d -> username o <> username operator ->
  o ∈ operators (commit_operator operator d).
Proof.
  unfold commit_operator; cbn [operators]. intros Hin Hne.
  apply list_elem_of_In, in_map_iff. exists o.
  apply String.eqb_neq in Hne. rewrite Hne.
  split; [reflexivity|apply list_elem_of_In; exact Hin].
Qed.

Lemma commit_operator_usernames (operator : Operator) (d : Db) :
  username <$> operators (commit_operator operator d) = username <$> operators d.
Proof.
  unfold commit_operator; cbn [operators].
  induction (operators d) as [|o rows IH]; [reflexivity|].
  cbn [List.map]. rewrite !fmap_cons, IH. f_equal.
  destruct (String.eqb_spec (username o) (username operator)); congruence.
Qed.

(** X2: a token request, whatever its outcome, leaves the tasks alone,
    keeps the list of operator names, never changes a login secret or a
    public key, and does not touch the row of any operator other than the
    one that X-ID names. *)
Theorem request_token_frame
  (request : Request) (n n' : datetime) (fresh : string) (d : Db) :
  let d1 := snd (request_token request n n' fresh d) in
  tasks d1 = tasks d
  /\ username <$> operators d1 = username <$> operators d
  /\ (forall o, headers_get (headers request) "X-ID" <> Some (username o) ->
                (o ∈ operators d1 <-> o ∈ operators d))
  /\ (forall o1, o1 ∈ operators d1 ->
         exists o, o ∈ operators d /\ username o = username o1
                   /\ login_secret o = login_secret o1
                   /\ public_key o = public_key o1).
Proof.
  intros d1. subst d1.
  destruct (request_token_store request n n' fresh d)
    as [->|(x & op & Hx & Hop & ->)].
  - repeat split; auto. intros o1 Hin. exists o1. auto.
  - pose proof (operator_named_username _ _ _ Hop) as Hu.
    pose proof Hop as Hin0. unfold operator_named, query_first in Hin0.
    apply find_some in Hin0 as [Hin0 _]. apply list_elem_of_In in Hin0.
    split; [reflexivity|]. split; [apply commit_operator_usernames|]. split.
    + intros o Hne. split; intros Hin.
      * apply commit_operator_rows in Hin as [[Hin _]|[-> _]]; [exact Hin|].
        exfalso. apply Hne. cbn. congruence.
      * apply commit_operator_keeps; [exact Hin|]. cbn. congruence.
    + intros o1 Hin.
      apply commit_operator_rows in Hin as [[Hin _]|[-> _]].
      * exists o1. auto.
      * exists op. auto.
Qed.

(** The check answers with an operator only for a Bearer credential whose
    token selects that operator, with an expiry that is not before now. *)
Lemma verify_auth_token_some_inv (request : Request) (now : datetime)
  (d d' : Db) (operator : Operator) :
  verify_auth_token request now d = (Return (Some operator), d') ->
  exists value expiry,
    headers_get (headers request) "Authorization" = Some value
    /\ Str.startswith value "Bearer " = true
    /\ query_first (fun o => opt_str_eqb (auth_token o)
                               (Some (Str.slice_from 7 value))) (operators d)
       = Some operator
    /\ auth_token operator = Some (Str.slice_from 7 value)
    /\ auth_token_expiry operator = Some expiry
    /\ now <= strptime expiry.
Proof.
  destruct request as [hs b]. intros H.
  pose proof (f_equal fst H) as Hf. cbn [fst] in Hf.
  unfold verify_auth_token in H; cbn [headers] in *.
  destruct (headers_get hs "Authorization") as [value|] eqn:Eh;
    [|discriminate H].
  destruct (Str.startswith value "Bearer ") eqn:Eb; [|discriminate H].
  clear H. rewrite (verify_auth_token_bearer _ _ _ _ _ Eh Eb) in Hf.
  destruct (query_first _ _) as [op|] eqn:Eq; [|discriminate Hf].
  destruct (auth_token_expiry op) as [e|] eqn:Ee; [|discriminate Hf].
  destruct (strptime e <? now) eqn:Cmp; [discriminate Hf|].
  injection Hf as ->. exists value, e.
  apply Z.ltb_ge in Cmp. repeat split; auto.
  unfold query_first in Eq. apply find_some in Eq as [_ Eq].
  unfold opt_str_eqb in Eq. destruct (auth_token operator) as [t|]; [|discriminate].
  apply String.eqb_eq in Eq. congruence.
Qed.

(** X3: rows that store a token and its expiry together stay so under
    token requests and revocations, and on such a store the check of a
    bearer token never raises: it answers with an operator or with none, and
    a successful token request returns a string as token. *)
Theorem token_with_expiry_invariant (d : Db) :
  (forall o, o ∈ operators d -> token_with_expiry o) ->
  (forall request n n' fresh o,
      o ∈ operators (snd (request_token request n n' fresh d)) ->
      token_with_expiry o)
  /\ (forall operator o,
        o ∈ operators (snd (revoke_token operator d)) -> token_with_expiry o)
  /\ (forall request now,
        exists answer, verify_auth_token request now d = (Return answer, d))
  /\ (forall request n n' fresh r d1,
        request_token request n n' fresh d = (Return r, d1) ->
        status_code r = 200 ->
        exists token, body r !! "token" = Some (JStr token)).
Proof.
  intros Hinv. split; [|split; [|split]].
  - intros request n n' fresh o Hin.
    destruct (request_token_store request n n' fresh d)
      as [E|(x & op & _ & _ & E)]; rewrite E in Hin; [auto|].
    apply commit_operator_rows in Hin as [[Hin _]|[-> _]]; [auto|].
    unfold token_with_expiry; cbn. split; discriminate.
  - intros operator o Hin.
    change (snd (revoke_token operator d))
      with (commit_operator (without_token operator) d) in Hin.
    apply commit_operator_rows in Hin as [[Hin _]|[-> _]]; [auto|].
    unfold token_with_expiry; cbn. tauto.
  - intros [hs b] now. unfold verify_auth_token; cbn [headers].
    destruct (headers_get hs "Authorization") as [value|]; [|eexists; reflexivity].
    destruct (negb _); [eexists; reflexivity|]. step_handler.
    destruct (query_first _ _) as [op|] eqn:Eq; [|eexists; reflexivity].
    unfold query_first in Eq. apply find_some in Eq as [Hin Ht].
    apply list_elem_of_In in Hin. specialize (Hinv op Hin).
    destruct (auth_token_expiry op) as [e|] eqn:Ee.
    + destruct (strptime e <? now); eexists; reflexivity.
    + exfalso. unfold token_with_expiry in Hinv.
      destruct (auth_token op); [|discriminate Ht].
      destruct Hinv as [_ Hinv]. discriminate (Hinv Ee).
  - intros request n n' fresh r d1 Hrun Hok.
    apply request_token_ok_inv in Hrun
      as (op & (x & g & m & _ & Hop & _) & Hcase); [|exact Hok].
    destruct Hcase as [(e & He & _ & -> & _)|(_ & -> & _)].
    + unfold operator_named, query_first in Hop.
      apply find_some in Hop as [Hin _]. apply list_elem_of_In in Hin.
      specialize (Hinv op Hin). unfold token_with_expiry in Hinv.
      destruct (auth_token op) as [t|] eqn:Et.
      * exists t. reflexivity.
      * destruct Hinv as [Hinv _]. rewrite (Hinv eq_refl) in He. discriminate He.
    + exists fresh. reflexivity.
Qed.

(** X4: after an operator revokes the token it authenticated with, the
    same request is turned away at any later time, provided no row of
    another operator stores the same token; the tasks are untouched. *)
Theorem revoke_token_invalidates
  (request : Request) (now : datetime) (d : Db) (operator : Operator) :
  verify_auth_token request now d = (Return (Some operator), d) ->
  (forall o, o ∈ operators d -> auth_token o = auth_token operator ->
             username o = username operator) ->
  exists d',
    verified revoke_token request now d
    = (Return {| body := list_to_map [("status", JBool true)];
                 status_code := 200 |}, d')
    /\ tasks d' = tasks d
    /\ forall func now',
         verified func request now' d'
         = (Return {| body := list_to_map [("status", JBool false);
                                           ("msg", JStr "Not authenticated")];
                      status_code := 401 |}, d').
Proof.
  intros Hv Huniq.
  exists (commit_operator (without_token operator) d).
  split; [|split; [reflexivity|]].
  - unfold verified. step_handler. rewrite Hv. reflexivity.
  - intros func now'. apply verified_without_operator.
    apply verify_auth_token_some_inv in Hv
      as (value & e & Hh & Hb & _ & Ht & _ & _).
    destruct request as [hs b]; cbn [headers] in Hh.
    pose proof (verify_auth_token_pure (mkRequest hs b) now'
                  (commit_operator (without_token operator) d)) as Hp.
    pose proof (verify_auth_token_bearer hs b value now'
                  (commit_operator (without_token operator) d) Hh Hb) as Hf.
    rewrite query_first_no_holder in Hf.
    + destruct (verify_auth_token _ _ _) as [r0 d0]; cbn in *. congruence.
    + intros o Hin Ho.
      apply commit_operator_rows in Hin as [[Hin Hne]|[-> _]].
      * apply Hne. cbn. apply Huniq; [exact Hin|congruence].
      * discriminate Ho.
Qed.

Lemma operator_named_committed (d : Db) (operator o : Operator) :
  operator_named (commit_operator operator d) (username operator) = Some o ->
  o = operator.
Proof.
  unfold operator_named, query_first, commit_operator; cbn [operators].
  induction (operators d) as [|r rows IH]; [discriminate|].
  simpl. destruct (String.eqb_spec (username r) (username operator)) as [E|E].
  - rewrite String.eqb_refl. congruence.
  - apply String.eqb_neq in E. rewrite E. exact IH.
Qed.

(** X5: after a revocation, the next successful token request of that
    operator returns the newly drawn token and stores it; the revoked token
    is not reused. *)
Theorem revoke_then_request_mints
  (operator : Operator) (request : Request) (n n' : datetime) (fresh : string)
  (d d1 : Db) (r : response) :
  headers_get (headers request) "X-ID" = Some (username operator) ->
  request_token request n n' fresh (snd (revoke_token operator d)) = (Return r, d1) ->
  status_code r = 200 ->
  body r !! "token" = Some (JStr fresh)
  /\ stored_token d1 (username operator) = Some fresh
  /\ stored_expiry d1 (username operator)
     = Some (strftime (n' + timedelta_hours 6)).
Proof.
  intros Hx Hrun Hok.
  change (snd (revoke_token operator d))
    with (commit_operator (without_token operator) d) in Hrun.
  apply request_token_ok_inv in Hrun
    as (op & (x & g & m & (Hh & _) & Hop & _) & Hcase); [|exact Hok].
  assert (x = username operator) as -> by congruence.
  change (username operator) with (username (without_token operator)) in Hop.
  pose proof (operator_named_committed _ _ _ Hop) as ->.
  destruct Hcase as [(e & He & _)|(_ & -> & ->)]; [discriminate He|].
  pose proof (operator_named_commit
                (commit_operator (without_token operator) d)
                (without_token operator)
                (with_token (without_token operator) fresh
                            (strftime (n' + timedelta_hours 6))) Hop) as Hc.
  unfold stored_token, stored_expiry.
  replace (operator_named
             (commit_operator
                (with_token (without_token operator) fresh
                            (strftime (n' + timedelta_hours 6)))
                (commit_operator (without_token operator) d))
             (username operator))
    with (Some (with_token (without_token operator) fresh
                           (strftime (n' + timedelta_hours 6))))
    by (symmetry; exact Hc).
  repeat split; reflexivity.
Qed.

Lemma username_primary_key (rows : list Operator) (o o' : Operator) :
  NoDup (username <$> rows) -> o ∈ rows -> o' ∈ rows ->
  username o = username o' -> o = o'.
Proof.
  induction rows as [|r rows IH]; intros Hnd Hin Hin' Hu; [inversion Hin|].
  rewrite fmap_cons in Hnd. apply NoDup_cons in Hnd as [Hfresh Hnd].
  apply elem_of_cons in Hin as [->|Hin]; apply elem_of_cons in Hin' as [->|Hin'].
  - reflexivity.
  - exfalso. apply Hfresh. rewrite Hu. apply list_elem_of_fmap. eauto.
  - exfalso. apply Hfresh. rewrite <- Hu. apply list_elem_of_fmap. eauto.
  - auto.
Qed.

Lemma bearer_prefix (token : string) :
  Str.startswith ("Bearer " ++ token) "Bearer " = true
  /\ Str.slice_from 7 ("Bearer " ++ token) = token.
Proof. split; [destruct token; reflexivity|reflexivity]. Qed.

(** X6: the token that a successful token request returns is accepted on
    the next request that presents it as "Bearer <token>", up to the stored
    expiry, and identifies the operator that asked for it; this holds when
    operator names are a primary key and no row of another operator stores
    the same token. *)
Theorem issued_token_is_accepted
  (request : Request) (name token : string) (n n' now2 : datetime)
  (fresh : string) (d d1 : Db) (r : response) (b : json) :
  headers_get (headers request) "X-ID" = Some name ->
  request_token request n n' fresh d = (Return r, d1) ->
  status_code r = 200 ->
  body r !! "token" = Some (JStr token) ->
  NoDup (username <$> operators d1) ->
  (forall o, o ∈ operators d1 -> auth_token o = Some token -> username o = name) ->
  (forall expiry, stored_expiry d1 name = Some expiry -> now2 <= strptime expiry) ->
  exists operator,
    verify_auth_token (mkRequest [("Authorization", "Bearer " ++ token)] b) now2 d1
    = (Return (Some operator), d1)
    /\ username operator = name
    /\ auth_token operator = Some token.
Proof.
  intros Hx Hrun Hok Htok Hpk Huniq Hexp.
  apply request_token_ok_inv in Hrun
    as (op0 & (x & g & m & (Hh & _) & Hop & _) & Hcase); [|exact Hok].
  assert (x = name) as -> by congruence.
  assert (exists op1 e1, operator_named d1 name = Some op1
                         /\ auth_token op1 = Some token
                         /\ auth_token_expiry op1 = Some e1)
    as (op1 & e1 & Hop1 & Ht1 & He1).
  { destruct Hcase as [(e & He & _ & -> & ->)|(_ & -> & ->)].
    - exists op0, e. repeat split; auto.
      destruct (auth_token op0) as [t|];
        [change (Some (JStr t) = Some (JStr token)) in Htok
        |change (Some JNull = Some (JStr token)) in Htok]; congruence.
    - pose proof (operator_named_username _ _ _ Hop) as Hu. subst name.
      assert (fresh = token) as <-.
      { change (Some (JStr fresh) = Some (JStr token)) in Htok. congruence. }
      exists (with_token op0 fresh (strftime (n' + timedelta_hours 6))),
             (strftime (n' + timedelta_hours 6)).
      split; [|split; reflexivity].
      exact (operator_named_commit d op0
               (with_token op0 fresh (strftime (n' + timedelta_hours 6))) Hop). }
  pose proof Hop1 as Hin1. unfold operator_named, query_first in Hin1.
  apply find_some in Hin1 as [Hin1 _]. apply list_elem_of_In in Hin1.
  destruct (bearer_prefix token) as [Hb Hs].
  pose proof (verify_auth_token_bearer
                [("Authorization", "Bearer " ++ token)] b ("Bearer " ++ token)
                now2 d1 eq_refl Hb) as Hf.
  rewrite Hs in Hf.
  destruct (query_first _ (operators d1)) as [o|] eqn:Eq.
  2:{ exfalso. unfold query_first in Eq.
      pose proof (find_none _ _ Eq op1 (proj1 (list_elem_of_In _ _) Hin1)) as Hn.
      cbn in Hn. rewrite Ht1 in Hn. cbn in Hn.
      rewrite String.eqb_refl in Hn. discriminate Hn. }
  unfold query_first in Eq. apply find_some in Eq as [Hin Ho].
  apply list_elem_of_In in Hin.
  assert (auth_token o = Some token) as Hto.
  { unfold opt_str_eqb in Ho. destruct (auth_token o) as [t|]; [|discriminate].
    apply String.eqb_eq in Ho. congruence. }
  assert (o = op1) as ->.
  { apply (username_primary_key (operators d1)); auto.
    rewrite (Huniq o Hin Hto). symmetry.
    exact (operator_named_username _ _ _ Hop1). }
  rewrite He1 in Hf.
  assert ((strptime e1 <? now2) = false) as Hcmp.
  { apply Z.ltb_ge. apply Hexp. unfold stored_expiry. rewrite Hop1. exact He1. }
  rewrite Hcmp in Hf.
  exists op1. split; [|split; [exact (operator_named_username _ _ _ Hop1)|exact Ht1]].
  pose proof (verify_auth_token_pure
                (mkRequest [("Authorization", "Bearer " ++ token)] b) now2 d1) as Hp.
  destruct (verify_auth_token _ _ _) as [r0 d0]; cbn in *. congruence.
Qed.

(** X7: an add-task request whose JSON body is neither null nor an object
    (a string, a list, a number, a boolean) makes the handler raise
    TypeError or AttributeError: no validation answer is returned, and no
    task is created. *)
Theorem add_task_raises_on_non_dict
  (set_order : gset string -> list string) (operator : Operator)
  (hs : list (string * string)) (b : json) (fresh_id : string)
  (now : datetime) (d : Db) :
  not_a_dict b ->
  exists e, add_task set_order operator (mkRequest hs b) fresh_id now d
            = (Raise e, d)
            /\ (e = TypeError \/ e = AttributeError).
Proof.
  intros Hb. unfold add_task; cbn [json_body].
  destruct b as [|v|z|str|l|m]; try contradiction;
    try (exists TypeError; split; [reflexivity|auto]).
  - destruct (existsb _ required_fields);
      [exists AttributeError|exists TypeError]; split; auto.
  - destruct (existsb _ required_fields);
      [exists AttributeError|exists TypeError]; split; auto.
Qed.

(** X8: a deletion that succeeds removes the rows with that task id and
    nothing else: the operators and every task with another id stay, and a
    later get or delete of the same id, by anyone, finds an unknown task
    and changes nothing. *)
Theorem delete_task_removes_only_that_task
  (operator : Operator) (id : string) (d d' : Db) (r : response) :
  delete_task operator id d = (Return r, d') ->
  status_code r = 200 ->
  operators d' = operators d
  /\ (forall t, t ∈ tasks d' <-> t ∈ tasks d /\ task_id t <> id)
  /\ (forall other,
        delete_task other id d' = (Return unknown_task, d')
        /\ get_task_result other id d' = (Return unknown_task, d')).
Proof.
  intros Hrun Hok. rewrite delete_task_cases in Hrun.
  destruct (query_first _ _) as [t0|] eqn:E;
    [|injection Hrun as <- <-; discriminate Hok].
  destruct (String.eqb (operator_id t0) (username operator));
    [|injection Hrun as <- <-; discriminate Hok].
  injection Hrun as <- <-.
  unfold query_first in E. apply find_some in E as [_ Hid].
  apply String.eqb_eq in Hid.
  assert (Hrows : forall t, t ∈ tasks (delete_row t0 d)
                            <-> t ∈ tasks d /\ task_id t <> id).
  { intros t. unfold delete_row; cbn [tasks].
    rewrite !list_elem_of_In, filter_In, negb_true_iff, String.eqb_neq, Hid.
    reflexivity. }
  split; [reflexivity|]. split; [exact Hrows|].
  intros other. rewrite delete_task_cases, get_task_result_cases.
  assert (Hnone : query_first (by_task_id id) (tasks (delete_row t0 d)) = None).
  { apply query_first_none_iff. intros (t & Hin & Ht).
    apply Hrows in Hin as [_ Hne]. contradiction. }
  rewrite Hnone. auto.
Qed.

Lemma filter_sublist {A} (p : A -> bool) (l : list A) :
  List.filter p l `sublist_of` l.
Proof.
  induction l as [|x l IH]; [constructor|].
  simpl. destruct (p x); [apply sublist_skip|apply sublist_cons]; exact IH.
Qed.

(** X9: list_tasks answers 200 with the JSON of exactly the tasks whose
    operator_id is the caller's name, in the order of the store, and leaves
    the store as it was. *)
Theorem list_tasks_only_own (operator : Operator) (d : Db) :
  exists own : list Task,
    list_tasks operator d
    = (Return {| body := list_to_map [("status", JBool true);
                                      ("tasks", JArr (toJSON <$> own))];
                 status_code := 200 |}, d)
    /\ (forall t, t ∈ own <-> t ∈ tasks d /\ operator_id t = username operator)
    /\ own `sublist_of` tasks d.
Proof.
  exists (List.filter (fun t => String.eqb (operator_id t) (username operator))
                      (tasks d)).
  split; [reflexivity|]. split; [|apply filter_sublist].
  intros t. rewrite !list_elem_of_In, filter_In, String.eqb_eq. reflexivity.
Qed.

End ListenerFacts.

Section ListenerExamples.
Import Admin Example.

Local Abbreviation toy T := (T Toy.bytes Toy.encode_utf8 Toy.decode_utf8
                               Toy.decrypt_and_verify).

(** A token request without X-Signature. *)
Lemma request_token_requires_both_headers_witness :
  Toy.request_token (mkRequest [("X-ID", "alice")] JNull) 0 0 "r" store
  = (Return {| body := list_to_map [("status", JBool false);
                                    ("message", JStr "Unknown operator key")];
               status_code := 400 |}, store).
Proof.
  apply (toy request_token_requires_both_headers).
  right; right; left. reflexivity.
Defined.

(** Alice holds the token "tok" with its expiry: the check finds her row,
    parses the expiry and answers, before the expiry with her and after it
    with none. *)
Lemma token_with_expiry_invariant_witness :
  let holder := with_token alice "tok" (Timestamp 100) in
  let d := mkDb [holder] [] in
  exists answer,
    verify_auth_token (mkRequest [("Authorization", "Bearer tok")] JNull) 0 d
    = (Return answer, d).
Proof.
  intros holder d.
  assert (H : forall o, o ∈ operators d -> token_with_expiry o).
  { intros o Hin. apply list_elem_of_singleton in Hin. subst o.
    unfold token_with_expiry. cbn. split; discriminate. }
  apply (proj1 (proj2 (proj2 (toy token_with_expiry_invariant d H)))).
Defined.

Lemma token_with_expiry_checked :
  let holder := with_token alice "tok" (Timestamp 100) in
  let d := mkDb [holder] [] in
  token_with_expiry holder
  /\ verify_auth_token (mkRequest [("Authorization", "Bearer tok")] JNull) 0 d
     = (Return (Some holder), d)
  /\ verify_auth_token (mkRequest [("Authorization", "Bearer tok")] JNull)
                       100000001 d
     = (Return None, d)
  /\ verify_auth_token (mkRequest [("Authorization", "Bearer tok")] JNull) 0
                       (mkDb [mkOperator "alice" "pk:" "s3cret" (Some "tok") None] [])
     = (Raise TypeError,
        mkDb [mkOperator "alice" "pk:" "s3cret" (Some "tok") None] []).
Proof.
  repeat split; try reflexivity; discriminate.
Qed.

(** Alice revokes the token "tok". *)
Lemma revoke_token_invalidates_witness :
  let holder := with_token alice "tok" (Timestamp 100) in
  let d := mkDb [holder] [] in
  let request := mkRequest [("Authorization", "Bearer tok")] JNull in
  exists d',
    verified revoke_token request 0 d
    = (Return {| body := list_to_map [("status", JBool true)];
                 status_code := 200 |}, d')
    /\ tasks d' = tasks d
    /\ forall func now',
         verified func request now' d'
         = (Return {| body := list_to_map [("status", JBool false);
                                           ("msg", JStr "Not authenticated")];
                      status_code := 401 |}, d').
Proof.
  intros holder d request.
  apply (revoke_token_invalidates request 0 d holder); [reflexivity|].
  intros o Hin _. apply list_elem_of_singleton in Hin. subst o. reflexivity.
Defined.

(** Alice revokes and authenticates again. *)
Lemma revoke_then_request_mints_witness :
  let holder := with_token alice "tok" (Timestamp 100) in
  let d := mkDb [holder] [] in
  let r := mkResponse (token_body (Some "new")) 200 in
  let d1 := mkDb [with_token alice "new" (Timestamp 21600)] [] in
  body r !! "token" = Some (JStr "new")
  /\ stored_token d1 "alice" = Some "new"
  /\ stored_expiry d1 "alice" = Some (strftime (0 + timedelta_hours 6)).
Proof.
  intros holder d r d1.
  apply (toy revoke_then_request_mints holder genuine 0 0 "new" d d1 r);
    reflexivity.
Defined.

(** Alice presents the token she was issued one second earlier. *)
Lemma issued_token_is_accepted_witness :
  let d1 := mkDb [with_token alice "tok1" (Timestamp 21600)] [] in
  exists operator,
    verify_auth_token (mkRequest [("Authorization", "Bearer " ++ "tok1")] JNull)
                      1000000 d1
    = (Return (Some operator), d1)
    /\ username operator = "alice"
    /\ auth_token operator = Some "tok1".
Proof.
  intros d1.
  apply (toy issued_token_is_accepted genuine "alice" "tok1" 0 0 1000000 "tok1"
             store d1 (mkResponse (token_body (Some "tok1")) 200) JNull);
    try reflexivity.
  - apply NoDup_singleton.
  - intros o Hin _. apply list_elem_of_singleton in Hin. subst o. reflexivity.
  - intros e He. injection He as <-. vm_compute. discriminate.
Defined.

(** A list as the body of an add-task request. *)
Lemma add_task_raises_on_non_dict_witness :
  exists e, add_task elements alice
                     (mkRequest [] (JArr [JStr "implant_id"])) "id1" 0 store
            = (Raise e, store)
            /\ (e = TypeError \/ e = AttributeError).
Proof. apply (add_task_raises_on_non_dict elements). exact I. Defined.

(** Alice deletes the one task she created. *)
Lemma delete_task_removes_only_that_task_witness :
  let t1 := mkTask "t1" "alice" (JStr "abc123") (JNum 1) (JObj ∅) None
                   (Timestamp 10) in
  let d := mkDb [alice] [t1] in
  let d' := mkDb [alice] [] in
  operators d' = operators d
  /\ (forall t, t ∈ tasks d' <-> t ∈ tasks d /\ task_id t <> "t1")
  /\ (forall other,
        delete_task other "t1" d' = (Return unknown_task, d')
        /\ get_task_result other "t1" d' = (Return unknown_task, d')).
Proof.
  intros t1 d d'.
  apply (delete_task_removes_only_that_task alice "t1" d d'
           (mkResponse (list_to_map [("status", JBool true)]) 200));
    reflexivity.
Defined.

End ListenerExamples.

(** * Further properties of the client *)

Section ClientFacts.
Import Comms.

Variable enc_and_sign_secret : OperatorConfig -> string.
Variable repr : json -> string.

Local Abbreviation handle_server_auth :=
  (Comms.handle_server_auth enc_and_sign_secret).
Local Abbreviation ensure_token := (Comms.ensure_token enc_and_sign_secret repr).

Lemma run_try_except {A S} (serve : S -> sent -> http_reply * S)
  (c : client A) (handler : exn -> option (client A)) (st : S) :
  run serve (try_except c handler) st
  = match run serve c st with
    | (Uncaught e, st') =>
        match handler e with
        | Some c' => run serve c' st'
        | None => (Uncaught e, st')
        end
    | other => other
    end.
Proof.
  revert st. induction c as [a|code|e|m u h j k IH]; intros st; simpl;
    try reflexivity.
  - destruct (handler e); reflexivity.
  - destruct (serve st _) as [reply st']. apply IH.
Qed.

Lemma leaves_run {A S} (P : outcome A -> Prop) (c : client A)
  (serve : S -> sent -> http_reply * S) (st : S) :
  leaves P c -> P (fst (run serve c st)).
Proof.
  revert st. induction c as [a|code|e|m u h j k IH]; intros st H; simpl;
    try exact H.
  destruct (serve st _) as [reply st']. apply IH, H.
Qed.

Lemma leaves_bind_exit {A B} (c : client A) (f : A -> client B) :
  leaves exits_with_1 c ->
  (forall a, leaves exits_with_1 (f a)) ->
  leaves exits_with_1 (client_bind c f).
Proof.
  intros Hc Hf. induction c as [a|code|e|m u h j k IH]; simpl in *; auto.
Qed.

Lemma leaves_try_exit {A} (c : client A) (handler : exn -> option (client A)) :
  leaves exits_with_1 c ->
  (forall e c', handler e = Some c' -> leaves exits_with_1 c') ->
  leaves exits_with_1 (try_except c handler).
Proof.
  intros Hc Hh. induction c as [a|code|e|m u h j k IH]; simpl in *; auto.
  destruct (handler e) as [c'|] eqn:E; [eauto|exact I].
Qed.

Lemma leaves_try_soft {A} (c : client A) (handler : exn -> option (client A)) :
  leaves exits_with_1 c ->
  (forall e, exists c', handler e = Some c' /\ leaves fails_soft c') ->
  leaves fails_soft (try_except c handler).
Proof.
  intros Hc Hh. induction c as [a|code|e|m u h j k IH]; simpl in *; auto.
  destruct (Hh e) as (c' & -> & Hc'). exact Hc'.
Qed.

Lemma request_exits (m : http_method) (u : Url) (hs : list (string * string))
  (j : option json) : leaves exits_with_1 (request m u hs j).
Proof. intros [|code b]; exact I. Qed.

Lemma json_field_exits (response : Z * option json) (key : string) :
  leaves exits_with_1 (json_field response key).
Proof.
  unfold json_field. destruct (snd response) as [[| | | | |m]|]; try exact I.
  destruct (m !! key); exact I.
Qed.

Lemma json_of_exits (response : Z * option json) :
  leaves exits_with_1 (json_of response).
Proof. unfold json_of. destruct (snd response); exact I. Qed.

Create HintDb client_leaves.
Hint Resolve request_exits json_field_exits json_of_exits : client_leaves.

(** Going through the binds of a client function. *)
Ltac exits :=
  unfold mbind, client_bind_inst, mret, client_ret;
  repeat first
    [ exact I
    | reflexivity
    | solve [auto with client_leaves]
    | apply leaves_bind_exit; [|intros ?]
    | match goal with
      | |- leaves _ (if ?b then _ else _) => destruct b
      | |- leaves _ (match ?x with _ => _ end) => destruct x
      end ].

Lemma server_auth_exits (ip : string) (port : Z) (name secret : string) :
  leaves exits_with_1 (server_auth ip port name secret).
Proof. unfold server_auth. exits. Qed.

Lemma handle_server_auth_exits (config : OperatorConfig) :
  leaves exits_with_1 (handle_server_auth config).
Proof.
  unfold Comms.handle_server_auth. exits.
  apply leaves_try_exit; [apply server_auth_exits|].
  intros e c' H. destruct e; inversion H; reflexivity.
Qed.

Lemma check_auth_token_exits (config : OperatorConfig) :
  leaves exits_with_1 (check_auth_token repr config).
Proof. unfold check_auth_token. exits. Qed.

Hint Resolve handle_server_auth_exits check_auth_token_exits : client_leaves.

Lemma ensure_token_exits (config : OperatorConfig) :
  leaves exits_with_1 (ensure_token config).
Proof. unfold Comms.ensure_token. exits. Qed.

Hint Resolve ensure_token_exits : client_leaves.

(** X10: whatever the server replies, and whether or not it replies,
    list_implants, get_tasks, add_task, get_task_result and get_server_stats
    never end with an exception: they return, or the process exits with
    code 1. *)
Theorem read_helpers_fail_soft {S : Type}
  (serve : S -> sent -> http_reply * S) (st : S) (config : OperatorConfig)
  (opcode : Z) (id : string) (args : json) :
  fails_soft (fst (run serve (list_implants enc_and_sign_secret repr config) st))
  /\ fails_soft (fst (run serve (get_tasks enc_and_sign_secret repr config) st))
  /\ fails_soft (fst (run serve (add_task enc_and_sign_secret repr config
                                          opcode id args) st))
  /\ fails_soft (fst (run serve (get_task_result enc_and_sign_secret repr
                                                 config id) st))
  /\ fails_soft (fst (run serve (get_server_stats enc_and_sign_secret repr
                                                  config) st)).
Proof.
  repeat split; apply leaves_run; apply leaves_try_soft;
    try (intros e; eexists; split; [reflexivity|exact I]);
    try (intros e; destruct e; eexists; (split; [reflexivity|]);
         (exact I || reflexivity));
    exits.
Qed.

(** X11: with the server unreachable.  A client without a token exits
    with code 1 from every helper, because the authentication catches the
    connection error and exits.  A client that holds a token gets the
    connection error at the status check: the helpers with an except clause
    return their empty value ([] for implants and tasks, {} for a new
    task, "" for a result; implant_exists says false), get_server_stats
    exits with code 1, and the profile and kill helpers let the exception
    escape. *)
Theorem helpers_when_server_down (config : OperatorConfig)
  (opcode : Z) (id : string) (args changes : json) :
  let outcome {A} (c : client A) := fst (run server_down c tt) in
  (auth_token config = JNull \/ auth_token config = JStr "" ->
     outcome (list_implants enc_and_sign_secret repr config) = Exited 1
     /\ outcome (implant_exists enc_and_sign_secret repr config id) = Exited 1
     /\ outcome (get_tasks enc_and_sign_secret repr config) = Exited 1
     /\ outcome (add_task enc_and_sign_secret repr config opcode id args) = Exited 1
     /\ outcome (get_task_result enc_and_sign_secret repr config id) = Exited 1
     /\ outcome (get_server_stats enc_and_sign_secret repr config) = Exited 1
     /\ outcome (get_implant_profile enc_and_sign_secret repr config id) = Exited 1
     /\ outcome (update_implant_profile enc_and_sign_secret repr config id changes)
        = Exited 1
     /\ outcome (kill_implant enc_and_sign_secret repr config id) = Exited 1)
  /\ (forall t, auth_token config = JStr t -> t <> "" ->
        outcome (list_implants enc_and_sign_secret repr config) = Returned (JArr [])
        /\ outcome (implant_exists enc_and_sign_secret repr config id)
           = Returned false
        /\ outcome (get_tasks enc_and_sign_secret repr config) = Returned (JArr [])
        /\ outcome (add_task enc_and_sign_secret repr config opcode id args)
           = Returned (JObj ∅)
        /\ outcome (get_task_result enc_and_sign_secret repr config id)
           = Returned (JStr "")
        /\ outcome (get_server_stats enc_and_sign_secret repr config) = Exited 1
        /\ outcome (get_implant_profile enc_and_sign_secret repr config id)
           = Uncaught ConnectionError
        /\ outcome (update_implant_profile enc_and_sign_secret repr config id
                                           changes)
           = Uncaught ConnectionError
        /\ outcome (kill_implant enc_and_sign_secret repr config id)
           = Uncaught ConnectionError).
Proof.
  intros outcome. destruct config as [nm host prt tok]; cbn [auth_token].
  split.
  - intros [->| ->]; repeat split; reflexivity.
  - intros t -> Hne. destruct t as [|c t]; [contradiction|].
    repeat split; reflexivity.
Qed.

(** X12: the body that the client's add_task posts carries the three
    fields that the listener's add_task requires, so the listener never
    answers it with a validation error: whatever it returns for that body is
    a 200. *)
Theorem client_add_task_body_is_complete
  (set_order : gset string -> list string) (operator : Operator)
  (hs : list (string * string)) (opcode : Z) (id : string) (args : json)
  (fresh_id : string) (now : datetime) (d d' : Db) (r : response) :
  (forall x, x ∈ Admin.required_fields ->
             is_Some (add_task_data opcode id args !! x))
  /\ (Admin.add_task set_order operator
        (mkRequest hs (JObj (add_task_data opcode id args))) fresh_id now d
      = (Return r, d') ->
      status_code r = 200
      /\ body r !! "status" = Some (JBool true)).
Proof.
  split.
  - intros x Hin. unfold Admin.required_fields in Hin.
    repeat (apply elem_of_cons in Hin as [->|Hin]; [eexists; reflexivity|]).
    inversion Hin.
  - unfold Admin.add_task; cbn [json_body].
    change (existsb _ Admin.required_fields) with false. cbn iota.
    change (add_task_data opcode id args !! "implant_id") with (Some (JStr id)).
    change (add_task_data opcode id args !! "opcode") with (Some (JNum opcode)).
    change (add_task_data opcode id args !! "args") with (Some args).
    cbn iota. step_handler.
    destruct (Admin.new_task _ _ _ _ _ _ d) as [[t|e] d0]; intros H;
      [|discriminate H].
    injection H as <- <-. split; reflexivity.
Qed.

End ClientFacts.

(** * The client's authentication against the listener's token endpoint *)

Section ClientListener.
Import Comms.

Variable bytes : Type.
Variable encode_utf8 : string -> bytes.
Variable decode_utf8 : bytes -> option string.
Variable decrypt_and_verify : bytes -> Operator -> option bytes.
Variable enc_and_sign_secret : OperatorConfig -> string.

Local Abbreviation request_token :=
  (Admin.request_token bytes encode_utf8 decode_utf8 decrypt_and_verify).
Local Abbreviation fails_authentication :=
  (fails_authentication bytes encode_utf8 decode_utf8 decrypt_and_verify).
Local Abbreviation authenticates :=
  (authenticates bytes encode_utf8 decode_utf8 decrypt_and_verify).
Local Abbreviation endpoint :=
  (token_endpoint bytes encode_utf8 decode_utf8 decrypt_and_verify).

(** The authentication runs on the reply to its one request. *)
Lemma run_handle_server_auth (config : OperatorConfig)
  (n n' : datetime) (fresh : string) (d d' : Db) (r : result response) :
  request_token (auth_request enc_and_sign_secret config) n n' fresh d = (r, d') ->
  run (endpoint n n' fresh) (handle_server_auth enc_and_sign_secret config) d
  = match as_reply r with
    | NoConnection => (Exited 1, d')
    | Reply code body =>
        if code =? 200 then
          match body with
          | Some (JObj m) =>
              match m !! "token", m !! "rmq_host", m !! "rmq_port",
                    m !! "rmq_queue" with
              | Some token, Some _, Some _, Some _ => (Returned token, d')
              | _, _, _, _ => (Uncaught KeyError, d')
              end
          | Some _ => (Uncaught TypeError, d')
          | None => (Uncaught JSONDecodeError, d')
          end
        else
          match body with
          | Some (JObj m) =>
              match m !! "msg" with
              | Some _ => (Exited 1, d')
              | None => (Uncaught KeyError, d')
              end
          | Some _ => (Uncaught TypeError, d')
          | None => (Uncaught JSONDecodeError, d')
          end
    end.
Proof.
  intros Hreq.
  unfold Comms.handle_server_auth, Comms.server_auth, Comms.request,
    mbind, client_bind_inst.
  cbn [client_bind try_except run].
  unfold token_endpoint at 1. cbn [sent_headers].
  unfold auth_request in Hreq. rewrite Hreq.
  destruct (as_reply r) as [|code [[| | | | |m]|]]; try reflexivity;
    cbn [client_bind try_except run fst snd json_field];
    destruct (code =? 200); try reflexivity;
    cbn [client_bind try_except run fst snd json_field mret client_ret].
  - destruct (m !! "token"); [|reflexivity].
    cbn [client_bind try_except run].
    destruct (m !! "rmq_host"); [|reflexivity].
    cbn [client_bind try_except run].
    destruct (m !! "rmq_port"); [|reflexivity].
    cbn [client_bind try_except run].
    destruct (m !! "rmq_queue"); reflexivity.
  - destruct (m !! "msg"); reflexivity.
Qed.

(** X13: the client's handle_server_auth against the listener's
    request_token.  When the name or the signed secret is empty, or the
    listener does not know the operator, the listener's 400 carries its text
    under "message" while the client reads "msg": the client ends with a
    KeyError.  When the signature does not verify or the secret is wrong the
    client exits with code 1.  When the submission authenticates the client
    returns the token of the reply. *)
Theorem handle_server_auth_against_listener (config : OperatorConfig)
  (n n' : datetime) (fresh : string) (d : Db) :
  let outcome :=
    run (endpoint n n' fresh) (handle_server_auth enc_and_sign_secret config) d in
  (name config = "" \/ enc_and_sign_secret config = "" ->
     outcome = (Uncaught KeyError, d))
  /\ (fails_authentication (auth_request enc_and_sign_secret config) d UnknownOperator ->
      outcome = (Uncaught KeyError, d))
  /\ (fails_authentication (auth_request enc_and_sign_secret config) d BadSignature
      \/ fails_authentication (auth_request enc_and_sign_secret config) d SecretMismatch ->
      outcome = (Exited 1, d))
  /\ (forall operator,
        authenticates (auth_request enc_and_sign_secret config) d operator ->
        exists token d1,
          request_token (auth_request enc_and_sign_secret config) n n' fresh d
          = (Return (mkResponse (token_body token) 200), d1)
          /\ outcome = (Returned (of_option_str token), d1)).
Proof.
  intros outcome. subst outcome.
  assert (Hfail : forall k,
             fails_authentication (auth_request enc_and_sign_secret config) d k ->
             request_token (auth_request enc_and_sign_secret config) n n' fresh d
             = (Return (mkResponse (failure_body k) 400), d)).
  { intros k Hf.
    destruct Hf as [x g Hs Hop | x g op Hs Hop Hv | x g op m text Hs Hop Hv Hd Hne];
      rewrite (request_token_submitted _ _ _ _ _ x g _ _ _ _ Hs), Hop;
      try reflexivity; rewrite Hv; try reflexivity.
    rewrite Hd. apply String.eqb_neq in Hne. rewrite Hne. reflexivity. }
  split; [|split; [|split]].
  - intros Hempty.
    rewrite (run_handle_server_auth config n n' fresh d d (Return key_failure));
      [reflexivity|].
    apply request_token_not_submitted.
    intros x g (Hx & Hg & Nx & Ng). cbn in Hx, Hg.
    injection Hx as <-. injection Hg as <-. destruct Hempty; contradiction.
  - intros Hf.
    rewrite (run_handle_server_auth config n n' fresh d d _ (Hfail _ Hf)).
    reflexivity.
  - intros [Hf|Hf];
      rewrite (run_handle_server_auth config n n' fresh d d _ (Hfail _ Hf));
      reflexivity.
  - intros op (x & g & m & Hs & Hop & Hv & Hd).
    pose proof (request_token_submitted bytes encode_utf8 decode_utf8
                  decrypt_and_verify _ x g n n' fresh d Hs) as Hreq.
    rewrite Hop, Hv, Hd, String.eqb_refl in Hreq.
    destruct (auth_token_expiry op) as [e|]; [destruct (strptime e >? n)|];
      eexists _, _; (split; [exact Hreq|]);
      rewrite (run_handle_server_auth config n n' fresh d _ _ Hreq);
      reflexivity.
Qed.

End ClientListener.

Section ClientListenerExamples.
Import Comms Example.

(** With no server, the client that holds "tok" lists no implants. *)
Lemma helpers_when_server_down_witness :
  fst (run server_down
           (list_implants (fun _ => "pk:s3cret") (fun _ => "") config) tt)
  = Returned (JArr []).
Proof.
  exact (proj1 (proj2 (helpers_when_server_down
                         (fun _ => "pk:s3cret") (fun _ => "") config
                         1 "abc" JNull JNull)
                      "tok" eq_refl ltac:(discriminate))).
Defined.

(** Alice's client authenticates against the listener. *)
Lemma handle_server_auth_against_listener_witness :
  exists token d1,
    Toy.request_token (auth_request (fun _ => "pk:s3cret") config) 0 0 "tok1" store
    = (Return (mkResponse (token_body token) 200), d1)
    /\ run (token_endpoint Toy.bytes Toy.encode_utf8 Toy.decode_utf8
                           Toy.decrypt_and_verify 0 0 "tok1")
           (handle_server_auth (fun _ => "pk:s3cret") config) store
       = (Returned (of_option_str token), d1).
Proof.
  apply (proj2 (proj2 (proj2
           (handle_server_auth_against_listener
              Toy.bytes Toy.encode_utf8 Toy.decode_utf8 Toy.decrypt_and_verify
              (fun _ => "pk:s3cret") config 0 0 "tok1" store))) alice).
  exists "alice", "pk:s3cret", "s3cret".
  repeat split; (reflexivity || discriminate).
Defined.

End ClientListenerExamples.

(** * Further properties of the opcodes *)

Section OpcodeLookups.
Import Opcodes.

Lemma get_by_name_from_some (l : list Opcodes) (s : string) (v : Z) :
  get_by_name_from l s = Some v ->
  exists o, o ∈ l /\ v = value o /\ Str.lower (name o) = Str.lower s.
Proof.
  induction l as [|o l IH]; [discriminate|]. simpl.
  destruct (String.eqb_spec (name o) s) as [E|_].
  - intros [= <-]. exists o. rewrite E. repeat split. left.
  - destruct (String.eqb_spec (Str.lower (name o)) (Str.lower s)) as [E|_]; simpl.
    + intros [= <-]. exists o. repeat split; [left|exact E].
    + intros H. destruct (IH H) as (o' & Hin & Hv & Hl).
      exists o'. repeat split; auto. right. exact Hin.
Qed.

Lemma get_by_name_from_none (l : list Opcodes) (s : string) :
  get_by_name_from l s = None <->
  forall o, o ∈ l -> Str.lower (name o) <> Str.lower s.
Proof.
  induction l as [|o l IH]; simpl.
  - split; [intros _ o H; inversion H|reflexivity].
  - destruct (String.eqb_spec (name o) s) as [E|Hne]; simpl.
    + split; [discriminate|]. intros H. exfalso.
      apply (H o); [left|]. rewrite E. reflexivity.
    + destruct (String.eqb_spec (Str.lower (name o)) (Str.lower s)) as [E|Hl].
      * split; [discriminate|]. intros H. exfalso. apply (H o); [left|exact E].
      * rewrite IH. split.
        -- intros H o' Hin. apply elem_of_cons in Hin as [->|Hin]; auto.
        -- intros H o' Hin. apply H. right. exact Hin.
Qed.

(** X14: get_by_name answers None exactly for the strings that are no
    member's name in any letter case (the empty string and a name with a
    trailing space among them), and a value it answers is the value of a
    member whose name is the string up to case. *)
Theorem get_by_name_unknown (s : string) :
  (get_by_name s = None <-> forall o, Str.lower (name o) <> Str.lower s)
  /\ (forall v, get_by_name s = Some v ->
        exists o, v = value o /\ Str.lower (name o) = Str.lower s)
  /\ get_by_name "" = None
  /\ get_by_name "CMD " = None.
Proof.
  split; [|split; [|split; reflexivity]].
  - unfold get_by_name. rewrite get_by_name_from_none. split.
    + intros H o. apply H. destruct o; unfold members; set_solver.
    + intros H o _. apply H.
  - intros v H. apply get_by_name_from_some in H as (o & _ & Hv & Hl). eauto.
Qed.

(** X15: get_by_value answers None exactly outside 1..8; a name it
    answers leads back to the value through get_by_name; and no two members
    share a value or a name, even ignoring case. *)
Theorem get_by_value_range (v : Z) :
  (get_by_value v = None <-> v < 1 \/ 8 < v)
  /\ (forall n, get_by_value v = Some n -> get_by_name n = Some v)
  /\ (forall o1 o2, value o1 = value o2 -> o1 = o2)
  /\ (forall o1 o2, Str.lower (name o1) = Str.lower (name o2) -> o1 = o2).
Proof.
  split; [|split; [|split]].
  - unfold get_by_value, members; cbn [get_by_value_from value].
    repeat match goal with
           | |- context [Z.eqb ?a v] => destruct (Z.eqb_spec a v)
           end; split; intros H; try discriminate H; try lia; reflexivity.
  - intros n H. apply get_by_value_closed in H as (o & -> & ->).
    apply get_by_name_lower. reflexivity.
  - intros [] []; intros H; try reflexivity; discriminate H.
  - intros [] []; intros H; try reflexivity; vm_compute in H; discriminate H.
Qed.

End OpcodeLookups.

(** * The scan of implant_exists on malformed entries *)

Section ImplantScan.
Import Comms.

Lemma implant_exists_loop_app
  (registry : list (string * gmap string json)) (rest : list json)
  (id_prefix : string) :
  implant_exists_loop ((implant_summary <$> registry) ++ rest) id_prefix
  = if existsb (fun entry => String.prefix id_prefix entry.1) registry
    then Done true
    else implant_exists_loop rest id_prefix.
Proof.
  induction registry as [|entry registry IH]; [reflexivity|].
  rewrite fmap_cons. cbn [app implant_exists_loop existsb].
  rewrite implant_matches_summary. unfold Str.startswith.
  unfold mbind, client_bind_inst; cbn [client_bind].
  destruct (String.prefix id_prefix entry.1); [reflexivity|exact IH].
Qed.

(** X16: the scan stops at the first implant whose id starts with the
    prefix and answers true whatever follows it, malformed entries included;
    an entry without "implant_id" that comes before any match makes the scan
    raise KeyError, and an entry that is not an object TypeError. *)
Theorem implant_exists_loop_stops_at_first_match
  (registry : list (string * gmap string json)) (rest : list json)
  (id_prefix : string) :
  ((exists entry, entry ∈ registry /\ Str.startswith entry.1 id_prefix = true) ->
     implant_exists_loop ((implant_summary <$> registry) ++ rest) id_prefix
     = Done true)
  /\ ((forall entry, entry ∈ registry -> Str.startswith entry.1 id_prefix = false) ->
      (forall m, m !! "implant_id" = None ->
         implant_exists_loop ((implant_summary <$> registry) ++ JObj m :: rest)
                             id_prefix
         = Throw KeyError)
      /\ (forall j, (forall m, j <> JObj m) ->
            implant_exists_loop ((implant_summary <$> registry) ++ j :: rest)
                                id_prefix
            = Throw TypeError)).
Proof.
  assert (Hnone : (forall entry, entry ∈ registry ->
                                Str.startswith entry.1 id_prefix = false) ->
                  existsb (fun entry => String.prefix id_prefix entry.1) registry
                  = false).
  { intros H. apply not_true_is_false. intros E.
    apply existsb_exists in E as (entry & Hin & Hp).
    apply list_elem_of_In in Hin. specialize (H entry Hin).
    unfold Str.startswith in H. congruence. }
  split.
  - intros (entry & Hin & Hp). rewrite implant_exists_loop_app.
    replace (existsb _ registry) with true; [reflexivity|].
    symmetry. apply existsb_exists. exists entry.
    split; [apply list_elem_of_In; exact Hin|exact Hp].
  - intros H. split.
    + intros m Hm. rewrite implant_exists_loop_app, (Hnone H).
      cbn [implant_exists_loop]. unfold implant_matches. rewrite Hm. reflexivity.
    + intros j Hj. rewrite implant_exists_loop_app, (Hnone H).
      destruct j as [| | | | |m]; try reflexivity.
      exfalso. exact (Hj m eq_refl).
Qed.

(** A match followed by an entry without id. *)
Lemma implant_exists_loop_stops_at_first_match_witness :
  implant_exists_loop
    ((implant_summary <$> Example.registry) ++ [JObj ∅]) "abcd"
  = Done true.
Proof.
  apply (proj1 (implant_exists_loop_stops_at_first_match
                  Example.registry [JObj ∅] "abcd")).
  exists ("abcdef", ∅). split; [|reflexivity].
  unfold Example.registry. apply list_elem_of_In. right. left. reflexivity.
Defined.

End ImplantScan.
